(** * FeedbackHologram: camera-feedback holography
    (slmsuite/holography/algorithms/_feedback.py)

    A shallow embedding of the [FeedbackHologram] class: the coordinate
    transform [ijcam_to_knmslm], the two-level measurement cache filled by
    [measure], [update_target], [_update_weights] and the constructor's
    duck-typed resolution of the [cameraslm] argument.

    Arrays are numpy arrays of IEEE-754 binary64 numbers ([dtype] is taken
    to be [float64]); they live in a store of mutable objects, so that the
    in-place writes of the source ([output=img], [out=self.target],
    [target *= 1 / norm]) and the aliasing between arguments and attributes
    are visible.  Python exceptions are values of [exn]; a method is a
    state transformer that returns either a value or a raised exception,
    together with the state at that point. *)

From Stdlib Require Import Floats ZArith Uint63 String List.
From stdpp Require Import base tactics option list strings gmap.
Import ListNotations.

Local Open Scope string_scope.
Local Open Scope list_scope.

(** ** Numbers and arrays *)

(** A 2-D numpy array, row by row. *)
Definition ndarray := list (list float).

(** Element-wise application, as numpy's ufuncs do. *)
Definition amap (f : float -> float) (a : ndarray) : ndarray :=
  map (map f) a.

Definition np_abs : ndarray -> ndarray := amap PrimFloat.abs.
Definition np_sqrt : ndarray -> ndarray := amap PrimFloat.sqrt.
Definition np_square : ndarray -> ndarray := amap (fun x => (x * x)%float).

(** [a *= c] for a scalar [c]. *)
Definition imul (c : float) : ndarray -> ndarray :=
  amap (fun x => (x * c)%float).

(** Every element satisfies the boolean test [p]. *)
Definition all_elements (p : float -> bool) (a : ndarray) : Prop :=
  Forall (Forall (fun x => p x = true)) a.

(** numpy's [isfinite], negated. *)
Definition nonfinite (x : float) : bool := negb (PrimFloat.is_finite x).



Definition shape2 : Type := Z * Z.
Definition vec2 : Type := float * float.
(** A 2x2 matrix, as its two rows. *)
Definition mat2 : Type := vec2 * vec2.

Definition float_of_Z (z : Z) : float := PrimFloat.of_uint63 (Uint63.of_Z z).

Definition vsub (u v : vec2) : vec2 :=
  ((fst u - fst v)%float, (snd u - snd v)%float).
Definition vadd (u v : vec2) : vec2 :=
  ((fst u + fst v)%float, (snd u + snd v)%float).
Definition vneg (u : vec2) : vec2 := ((- fst u)%float, (- snd u)%float).
(** [np.flip] of a 2-vector. *)
Definition vflip (u : vec2) : vec2 := (snd u, fst u).

(** [np.diag] of a 2-vector. *)
Definition diag (u : vec2) : mat2 := ((fst u, 0%float), (0%float, snd u)).

(** [np.matmul] of a 2x2 matrix with a column vector. *)
Definition matvec (m : mat2) (v : vec2) : vec2 :=
  let '((a, b), (c, d)) := m in
  ((a * fst v + b * snd v)%float, (c * fst v + d * snd v)%float).

(** [np.matmul] of two 2x2 matrices. *)
Definition matmul (m n : mat2) : mat2 :=
  let '((a, b), (c, d)) := m in
  let '((e, f), (g, h)) := n in
  (((a * e + b * g)%float, (a * f + b * h)%float),
   ((c * e + d * g)%float, (c * f + d * h)%float)).

(** [np.flip(np.flip(m, axis=0), axis=1)]. *)
Definition flip_axes (m : mat2) : mat2 :=
  let '((a, b), (c, d)) := m in ((d, c), (b, a)).

(** ** Exceptions and outcomes *)

Inductive exn : Type :=
  | AssertionError
  | AttributeError
  | KeyError (key : string)
  | ValueError (msg : string)
  | TypeError
  | NotImplementedError.

Inductive outcome (A : Type) : Type :=
  | Ret (a : A)
  | Raise (e : exn).
Arguments Ret {A} a.
Arguments Raise {A} e.

Definition msg_no_power : string :=
  "No power in hologram. Maybe target_ij is out of range of knm space? Check transformations.".
Definition msg_expected_slm : string :=
  "Expected a CameraSLM or SLM to be passed to cameraslm.".

(** The names the specification gives to the three failures of this class. *)
Definition NotCalibratedError : exn := AssertionError.
Definition OutOfRangeError : exn := ValueError msg_no_power.
Definition ConfigurationError : exn := ValueError msg_expected_slm.

(** ** Objects *)

(** The store of array objects; a reference is an index into it. *)
Definition loc := nat.

(** The Fourier calibration dictionary: keys ["M"], ["b"] and ["a"]. *)
Record Calibration : Type := {
  cal_M : mat2;
  cal_b : vec2;
  cal_a : vec2;
}.

(** What the constructor probes on an SLM-like object.  [None] stands for
    an attribute that is missing (or a call that raises): the bare
    [except:] of the source does not tell them apart. *)
Record Device : Type := {
  _get_source_amplitude : option ndarray;
  dev_shape : option shape2;
}.

Record Camera : Type := {
  camera_shape : shape2;
}.

(** The object bound to [cameraslm], duck-typed: its [slm], [cam] and
    [fourier_calibration] attributes when it has them (the latter may
    hold Python's [None]), and what it answers when probed as an SLM
    itself. *)
Record Reference : Type := {
  slm : option Device;
  cam : option Camera;
  fourier_calibration : option (option Calibration);
  as_device : Device;
}.

(** [self.flags], with the keys this class reads. *)
Record Flags : Type := {
  flag_feedback : option string;
  flag_blur_ij : option Z;
  flag_raw_stats : option bool;
}.

(** What the hardware is asked to do, in order. *)
Inductive event : Type :=
  | EvWrite (phase : ndarray) (settle : bool)
  | EvFlush
  | EvGetImage
  | EvPlot (farfield : ndarray).

Record FeedbackHologram : Type := {
  cameraslm : option Reference;
  shape : shape2;
  flags : Flags;
  target : loc;
  weights : loc;
  amp_ff : loc;
  phase : loc;
  target_ij : option loc;
  img_ij : option loc;
  img_knm : option loc;
  cam_points : option (list vec2);
  cam_shape : option shape2;
}.

Record World : Type := {
  self : FeedbackHologram;
  heap : list ndarray;
  trace : list event;
}.

Definition set_img_ij (v : option loc) (s : FeedbackHologram) : FeedbackHologram :=
  {| cameraslm := cameraslm s; shape := shape s; flags := flags s; target := target s;
     weights := weights s; amp_ff := amp_ff s; phase := phase s;
     target_ij := target_ij s; img_ij := v; img_knm := img_knm s;
     cam_points := cam_points s; cam_shape := cam_shape s |}.

Definition set_img_knm (v : option loc) (s : FeedbackHologram) : FeedbackHologram :=
  {| cameraslm := cameraslm s; shape := shape s; flags := flags s; target := target s;
     weights := weights s; amp_ff := amp_ff s; phase := phase s;
     target_ij := target_ij s; img_ij := img_ij s; img_knm := v;
     cam_points := cam_points s; cam_shape := cam_shape s |}.

Definition set_camera_geometry (p : option (list vec2)) (c : option shape2)
    (s : FeedbackHologram) : FeedbackHologram :=
  {| cameraslm := cameraslm s; shape := shape s; flags := flags s; target := target s;
     weights := weights s; amp_ff := amp_ff s; phase := phase s;
     target_ij := target_ij s; img_ij := img_ij s; img_knm := img_knm s;
     cam_points := p; cam_shape := c |}.

(** ** The method monad: state and exceptions *)

Definition M (A : Type) : Type := World -> outcome A * World.

Definition ret {A} (a : A) : M A := fun w => (Ret a, w).
Definition raise {A} (e : exn) : M A := fun w => (Raise e, w).
Definition bind {A B} (m : M A) (k : A -> M B) : M B :=
  fun w =>
    match m w with
    | (Ret a, w') => k a w'
    | (Raise e, w') => (Raise e, w')
    end.

Notation "x <- m ;; k" := (bind m (fun x => k))
  (at level 100, m at next level, right associativity).
Notation "m ;;; k" := (bind m (fun _ => k))
  (at level 100, right associativity).

Definition get_self : M FeedbackHologram := fun w => (Ret (self w), w).
Definition modify_self (f : FeedbackHologram -> FeedbackHologram) : M unit :=
  fun w => (Ret tt, {| self := f (self w); heap := heap w; trace := trace w |}).

(** The contents of an array object. *)
Definition deref (h : list ndarray) (l : loc) : ndarray := default [] (h !! l).

Definition read (l : loc) : M ndarray := fun w => (Ret (deref (heap w) l), w).
(** An in-place write into an existing array object. *)
Definition write (l : loc) (a : ndarray) : M unit :=
  fun w => (Ret tt, {| self := self w; heap := <[l := a]> (heap w); trace := trace w |}).
(** A new array object. *)
Definition alloc (a : ndarray) : M loc :=
  fun w => (Ret (length (heap w)),
            {| self := self w; heap := heap w ++ [a]; trace := trace w |}).
Definition emit (e : event) : M unit :=
  fun w => (Ret tt, {| self := self w; heap := heap w; trace := trace w ++ [e] |}).
Definition get_trace : M (list event) := fun w => (Ret (trace w), w).

(** Attribute access on a value that may be [None] or lack the attribute. *)
Definition getattr {A} (o : option A) : M A :=
  match o with
  | Some a => ret a
  | None => raise AttributeError
  end.

(** ** Collaborators that live outside this file

    The numerical kernels of scipy and cupy, the helpers of
    [slmsuite.holography.toolbox], the methods inherited from [Hologram]
    and the camera are not part of [_feedback.py]; the class is
    parameterised by them. *)

(** The keyword arguments the constructor looks at. *)
Record Kwargs : Type := {
  kw_amp : option ndarray;
  kw_slm_shape : option (option shape2);
}.

(** What [Hologram.__init__] leaves in the attributes of the base class. *)
Record HologramInit : Type := {
  init_shape : shape2;
  init_flags : Flags;
  init_target : ndarray;
  init_weights : ndarray;
  init_amp_ff : ndarray;
  init_phase : ndarray;
}.

Class Externals : Type := {
  (** [toolbox.convert_vector(v, "knm", "kxy", slm=slm, shape=shape)] *)
  convert_vector_knm_kxy : Device -> shape2 -> vec2 -> vec2;
  (** [toolbox.convert_vector(points, "kxy", "knm", slm=slm, shape=shape)] *)
  convert_vector_kxy_knm : Device -> shape2 -> list vec2 -> list vec2;
  (** [cameraslm.ijcam_to_kxyslm(points)] on formatted 2-vectors *)
  ijcam_to_kxyslm : Reference -> list (Z * Z) -> list vec2;
  (** [scipy.ndimage.gaussian_filter(img, (blur, blur), truncate=2)] *)
  sp_gaussian_filter : ndarray -> Z -> ndarray;
  (** [cupyx.scipy.ndimage.affine_transform(input, matrix, offset,
      output_shape, order, mode="constant", cval=0)] *)
  cp_affine_transform : ndarray -> mat2 -> vec2 -> shape2 -> Z -> ndarray;
  (** [Hologram._norm] *)
  _norm : ndarray -> float;
  (** [Hologram.__init__(target=shape, amp=amp, slm_shape=slm_shape)] *)
  Hologram__init__ : shape2 -> option ndarray -> option shape2 -> HologramInit;
  (** [Hologram.extract_phase], from the phase buffer *)
  extract_phase : ndarray -> ndarray;
  (** [Hologram.reset_weights] *)
  reset_weights : World -> World;
  (** [Hologram._update_weights_generic(weights, feedback_amp, target)],
      the new contents of the weight array *)
  _update_weights_generic : ndarray -> option ndarray -> ndarray -> ndarray;
  (** [cam.get_image()], given what the hardware was asked so far *)
  get_image : list event -> ndarray;
}.

Section Methods.
Context `{E : Externals}.

(** *** [ijcam_to_knmslm] *)

(** Lines 146-162: the composite affine map handed to the resampler. *)
Definition composite_affine (d : Device) (sh : shape2) (cal : Calibration) : mat2 * vec2 :=
  let conversion :=
    vsub (convert_vector_knm_kxy d sh (1%float, 1%float))
         (convert_vector_knm_kxy d sh (0%float, 0%float)) in
  let M1 := diag conversion in
  let half_flipped : vec2 :=
    ((float_of_Z (snd sh) / 2)%float, (float_of_Z (fst sh) / 2)%float) in
  let b1 := matvec M1 (vneg half_flipped) in
  let M2 := cal_M cal in
  let b2 := vsub (cal_b cal) (matvec M2 (cal_a cal)) in
  (flip_axes (matmul M2 M1), vflip (vadd (matvec M2 b1) b2)).

(** Lines 165-169: the blur that applies. *)
Definition effective_blur (fl : Flags) (blur_ij : option Z) : Z :=
  match blur_ij with
  | Some b => b
  | None =>
      match flag_blur_ij fl with
      | Some b => b
      | None => 0%Z
      end
  end.

(** [assert x is not None] *)
Definition assert_not_None {A} (o : option A) : M A :=
  match o with
  | Some a => ret a
  | None => raise AssertionError
  end.

Definition ijcam_to_knmslm (img : loc) (out : option loc) (blur_ij : option Z)
    (order : Z) : M loc :=
  s <- get_self ;;
  cs <- assert_not_None (cameraslm s) ;;
  calib <- getattr (fourier_calibration cs) ;;
  cal <- assert_not_None calib ;;
  d <- getattr (slm cs) ;;
  let '(Mx, b) := composite_affine d (shape s) cal in
  let blur := effective_blur (flags s) blur_ij in
  (* img = sp_gaussian_filter(img, (blur_ij, blur_ij), output=img, truncate=2) *)
  (if (0 <? blur)%Z
   then (a <- read img ;; write img (sp_gaussian_filter a blur))
   else ret tt) ;;;
  (* cp_img = cp.array(img, dtype=self.dtype); cp.abs(cp_img, out=cp_img) *)
  a <- read img ;;
  cp_img <- alloc a ;;
  a <- read cp_img ;;
  write cp_img (np_abs a) ;;;
  (* target = cp_affine_transform(input=cp_img, ..., output=out) *)
  a <- read cp_img ;;
  tgt <- match out with
         | Some o => write o (cp_affine_transform a Mx b (shape s) order) ;;; ret o
         | None => alloc (cp_affine_transform a Mx b (shape s) order)
         end ;;
  (* target = cp.abs(target, out=target) *)
  a <- read tgt ;;
  write tgt (np_abs a) ;;;
  (* norm = Hologram._norm(target); target *= 1 / norm *)
  a <- read tgt ;;
  let norm := _norm a in
  write tgt (imul (1 / norm)%float a) ;;;
  if (norm =? 0)%float
  then raise (ValueError msg_no_power)
  else ret tgt.

(** *** [measure] *)

Definition measure (basis : string) : M unit :=
  s <- get_self ;;
  match img_ij s with
  | None =>
      (* self.cameraslm.slm.write(self.extract_phase(), settle=True) *)
      cs <- getattr (cameraslm s) ;;
      _ <- getattr (slm cs) ;;
      ph <- read (phase s) ;;
      emit (EvWrite (extract_phase ph) true) ;;;
      (* self.cameraslm.cam.flush() *)
      _ <- getattr (cam cs) ;;
      emit EvFlush ;;;
      (* self.img_ij = np.array(self.cameraslm.cam.get_image(), copy=False, dtype=self.dtype) *)
      tr <- get_trace ;;
      emit EvGetImage ;;;
      frame <- alloc (get_image tr) ;;
      modify_self (set_img_ij (Some frame)) ;;;
      (if String.eqb basis "knm"
       then
         r <- ijcam_to_knmslm frame (img_knm s) None 3 ;;
         modify_self (set_img_knm (Some r)) ;;;
         a <- read r ;;
         write r (np_sqrt a)
       else modify_self (set_img_knm None)) ;;;
      (* self.img_ij = np.sqrt(self.img_ij) *)
      a <- read frame ;;
      amplitude <- alloc (np_sqrt a) ;;
      modify_self (set_img_ij (Some amplitude))
  | Some cached =>
      if String.eqb basis "knm"
      then
        match img_knm s with
        | None =>
            a <- read cached ;;
            squared <- alloc (np_square a) ;;
            r <- ijcam_to_knmslm squared None None 3 ;;
            modify_self (set_img_knm (Some r)) ;;;
            a <- read r ;;
            write r (np_sqrt a)
        | Some _ => ret tt
        end
      else ret tt
  end.

(** *** [update_target] *)

Definition plot_farfield (l : loc) : M unit :=
  a <- read l ;;
  emit (EvPlot a).

Definition update_target (new_target : loc) (reset : bool) (plot : bool) : M unit :=
  s <- get_self ;;
  _ <- ijcam_to_knmslm new_target (Some (target s)) None 0 ;;
  (if reset then (fun w => (Ret tt, reset_weights w)) else ret tt) ;;;
  (if plot then (s' <- get_self ;; plot_farfield (target s')) else ret tt).

(** *** [__init__] *)

(** An object answers as an SLM when both probes of the [try] succeed. *)
Definition probe (d : Device) : option (ndarray * shape2) :=
  match _get_source_amplitude d, dev_shape d with
  | Some amp, Some sh => Some (amp, sh)
  | _, _ => None
  end.

(** Lines 54-74.  The result is what is left in [self.cameraslm], the
    local variables [amp] and [slm_shape], and [kwargs] (from which
    ["amp"] is popped when no [cameraslm] was given). *)
Definition resolve_cameraslm (arg : option Reference) (kw : Kwargs)
    : outcome (option Reference * option ndarray * option shape2 * Kwargs) :=
  match arg with
  | Some r =>
      match from_option probe None (slm r) with
      | Some (amp, sh) => Ret (Some r, Some amp, Some sh, kw)
      | None =>
          match probe (as_device r) with
          | Some (amp, sh) => Ret (None, Some amp, Some sh, kw)
          | None => Raise (ValueError msg_expected_slm)
          end
      end
  | None =>
      Ret (None, kw_amp kw, None,
           {| kw_amp := None; kw_slm_shape := kw_slm_shape kw |})
  end.

(** Lines 88-110. *)
Definition init_camera_geometry (arg_target_ij : option loc) : M unit :=
  s <- get_self ;;
  match cameraslm s with
  | None => modify_self (set_camera_geometry None None)
  | Some cs =>
      calib <- getattr (fourier_calibration cs) ;;
      match calib with
      | None => modify_self (set_camera_geometry None None)
      | Some _ =>
          c <- getattr (cam cs) ;;
          let csh := camera_shape c in
          let ll := (0, 0)%Z in
          let lr := (0, fst csh - 1)%Z in
          let ur := (snd csh - 1, fst csh - 1)%Z in
          let ul := (snd csh - 1, 0)%Z in
          let points_kxy := ijcam_to_kxyslm cs [ll; lr; ur; ul; ll] in
          d <- getattr (slm cs) ;;
          modify_self
            (set_camera_geometry
               (Some (convert_vector_kxy_knm d (shape s) points_kxy)) (Some csh)) ;;;
          match arg_target_ij with
          | Some t => update_target t true false
          | None => ret tt
          end
      end
  end.

(** The constructor, run in a store [h] that holds the caller's arrays.
    When it raises, no object is bound. *)
Definition __init__ (sh : shape2) (arg_target_ij : option loc)
    (arg_cameraslm : option Reference) (kwargs : Kwargs)
    (h : list ndarray) (tr : list event) : outcome World :=
  match resolve_cameraslm arg_cameraslm kwargs with
  | Raise e => Raise e
  | Ret (cs, amp, slm_shape, kw) =>
      match kw_amp kw with
      | Some _ =>
          (* super().__init__(target=shape, amp=amp, **kwargs): "amp" given twice *)
          Raise TypeError
      | None =>
          let slm_shape := default slm_shape (kw_slm_shape kw) in
          let base := Hologram__init__ sh amp slm_shape in
          let n := length h in
          let h1 := h ++ [init_target base; init_weights base;
                          init_amp_ff base; init_phase base] in
          (* self.target_ij = target_ij.astype(self.dtype) *)
          let '(tij, h2) :=
            match arg_target_ij with
            | Some t => (Some (length h1), h1 ++ [deref h1 t])
            | None => (None, h1)
            end in
          let w := {| self := {| cameraslm := cs; shape := init_shape base;
                                 flags := init_flags base;
                                 target := n; weights := S n;
                                 amp_ff := S (S n); phase := S (S (S n));
                                 target_ij := tij; img_ij := None; img_knm := None;
                                 cam_points := None; cam_shape := None |};
                      heap := h2; trace := tr |} in
          match init_camera_geometry arg_target_ij w with
          | (Ret _, w') => Ret w'
          | (Raise e, _) => Raise e
          end
      end
  end.

(** *** [refine_offset] *)

Definition refine_offset (img : loc) (basis : string) : M unit :=
  raise NotImplementedError.

(** *** [_update_weights] *)

Definition update_weights_in_place (feedback_amp : option loc) : M unit :=
  s <- get_self ;;
  wts <- read (weights s) ;;
  fb <- match feedback_amp with
        | Some l => (a <- read l ;; ret (Some a))
        | None => ret None
        end ;;
  tgt <- read (target s) ;;
  write (weights s) (_update_weights_generic wts fb tgt).

Definition _update_weights : M unit :=
  s <- get_self ;;
  (* feedback = self.flags["feedback"] *)
  feedback <- match flag_feedback (flags s) with
              | Some f => ret f
              | None => raise (KeyError "feedback")
              end ;;
  if String.eqb feedback "computational"
  then update_weights_in_place (Some (amp_ff s))
  else if String.eqb feedback "experimental"
  then
    measure "knm" ;;;
    s' <- get_self ;;
    update_weights_in_place (img_knm s')
  else ret tt.

End Methods.

(** ** Statistics *)

(** A metrics record, as [Hologram._calculate_stats] returns it: a
    dictionary from the name of a metric to its value. *)
Definition metrics : Type := list (string * float).

(** The array module a computation is asked to run with ([xp]). *)
Inductive array_module : Type := cp | np.

(** The statistics helpers inherited from [Hologram]. *)
Class StatsExternals : Type := {
  (** [Hologram._calculate_stats(feedback_amp, target_amp, xp=xp,
      efficiency_compensation=True, raw=raw)] *)
  _calculate_stats : option ndarray -> option ndarray -> array_module -> bool -> metrics;
  (** [Hologram._calculate_stats_computational(stats, stat_groups)], the
      dictionary it leaves *)
  _calculate_stats_computational :
    World -> list string -> gmap string metrics -> gmap string metrics;
  (** [Hologram._update_stats_dictionary(stats)] *)
  _update_stats_dictionary : gmap string metrics -> World -> World;
}.

Section Statistics.
Context `{E : Externals} `{SE : StatsExternals}.

(** ["raw_stats" in self.flags and self.flags["raw_stats"]] *)
Definition raw_stats (fl : Flags) : bool := default false (flag_raw_stats fl).

(** The contents behind an attribute that holds an array or [None]. *)
Definition deref_opt (h : list ndarray) (o : option loc) : option ndarray :=
  match o with
  | Some l => Some (deref h l)
  | None => None
  end.

(** Lines 299-307.  The dictionary is the caller's: what was stored in it
    before an exception stays there. *)
Definition stats_experimental_knm (stat_groups : list string)
    (stats : gmap string metrics) (w : World)
    : outcome unit * gmap string metrics * World :=
  if bool_decide ("experimental_knm" ∈ stat_groups)
  then
    match measure "knm" w with
    | (Ret _, w') =>
        (Ret tt,
         <["experimental_knm" :=
             _calculate_stats (deref_opt (heap w') (img_knm (self w')))
               (Some (deref (heap w') (target (self w')))) cp
               (raw_stats (flags (self w')))]> stats,
         w')
    | (Raise e, w') => (Raise e, stats, w')
    end
  else (Ret tt, stats, w).

(** Lines 308-317. *)
Definition stats_experimental_ij (stat_groups : list string)
    (stats : gmap string metrics) (w : World)
    : outcome unit * gmap string metrics * World :=
  if bool_decide ("experimental_ij" ∈ stat_groups)
     || bool_decide ("experimental" ∈ stat_groups)
  then
    match measure "ij" w with
    | (Ret _, w') =>
        (* self.img_ij.astype(self.dtype) *)
        match img_ij (self w') with
        | Some l =>
            (Ret tt,
             <["experimental_ij" :=
                 _calculate_stats (Some (deref (heap w') l))
                   (deref_opt (heap w') (target_ij (self w'))) np
                   (raw_stats (flags (self w')))]> stats,
             {| self := self w'; heap := heap w' ++ [deref (heap w') l];
                trace := trace w' |})
        | None => (Raise AttributeError, stats, w')
        end
    | (Raise e, w') => (Raise e, stats, w')
    end
  else (Ret tt, stats, w).

Definition _calculate_stats_experimental (stats : gmap string metrics)
    (stat_groups : list string) (w : World)
    : outcome unit * gmap string metrics * World :=
  match stats_experimental_knm stat_groups stats w with
  | (Ret _, stats', w') => stats_experimental_ij stat_groups stats' w'
  | (Raise e, stats', w') => (Raise e, stats', w')
  end.

Definition update_stats (stat_groups : list string) : M unit :=
  fun w =>
    (* stats = {} *)
    let stats := _calculate_stats_computational w stat_groups ∅ in
    match _calculate_stats_experimental stats stat_groups w with
    | (Ret _, stats', w') => (Ret tt, _update_stats_dictionary stats' w')
    | (Raise e, _, w') => (Raise e, w')
    end.

End Statistics.

(** ** What [ijcam_to_knmslm] computes, on array contents *)

Section Transform.
Context `{E : Externals}.

(** The image that is resampled: the input, blurred when a blur applies. *)
Definition knm_source (w : World) (img : loc) (blur_ij : option Z) : ndarray :=
  let a := deref (heap w) img in
  let blur := effective_blur (flags (self w)) blur_ij in
  if (0 <? blur)%Z then sp_gaussian_filter a blur else a.

(** The magnitude of the resampled magnitude (lines 175-194). *)
Definition knm_resampled (s : FeedbackHologram) (d : Device) (cal : Calibration)
    (order : Z) (a : ndarray) : ndarray :=
  np_abs (cp_affine_transform (np_abs a)
            (fst (composite_affine d (shape s) cal))
            (snd (composite_affine d (shape s) cal)) (shape s) order).

(** Line 196: [target *= 1 / norm]. *)
Definition normalised (a : ndarray) : ndarray := imul (1 / _norm a)%float a.

(** The store after the call: the input overwritten by the image that was
    resampled, one temporary ([cp_img]), and the result, either in the
    caller's buffer or in a new array. *)
Definition knm_heap (h : list ndarray) (img : loc) (out : option loc)
    (src final : ndarray) : list ndarray :=
  match out with
  | Some o => <[o := final]> (<[img := src]> h ++ [np_abs src])
  | None => <[img := src]> h ++ [np_abs src; final]
  end.

(** The array that holds the result. *)
Definition knm_result (h : list ndarray) (out : option loc) : loc :=
  match out with
  | Some o => o
  | None => S (length h)
  end.

(** An instance on which the transform can run: a composite controller
    with a calibration. *)
Definition calibrated (s : FeedbackHologram) (d : Device) (cal : Calibration) : Prop :=
  exists cs, cameraslm s = Some cs /\
             fourier_calibration cs = Some (Some cal) /\
             slm cs = Some d.

(** Not feedback-capable, or feedback-capable with the calibration absent. *)
Definition not_calibrated (s : FeedbackHologram) : Prop :=
  cameraslm s = None \/
  exists cs, cameraslm s = Some cs /\ fourier_calibration cs = Some None.

(** A reference, or an optional one, designates an array of the store. *)
Definition valid (w : World) (l : loc) : Prop := l < length (heap w).
Definition valid_opt (w : World) (o : option loc) : Prop :=
  match o with
  | Some l => valid w l
  | None => True
  end.

(** The two entries of the measurement cache: [img_knm] is only there
    when [img_ij] is. *)
Definition cache_consistent (s : FeedbackHologram) : Prop :=
  img_knm s <> None -> img_ij s <> None.

Definition is_capture (e : event) : bool :=
  match e with EvGetImage => true | _ => false end.
Definition is_slm_write (e : event) : bool :=
  match e with EvWrite _ _ => true | _ => false end.

(** Camera frames grabbed so far. *)
Definition captures (tr : list event) : nat := length (List.filter is_capture tr).

(** Patterns written to the SLM so far. *)
Definition slm_writes (tr : list event) : nat := length (List.filter is_slm_write tr).

(** A sequence of [measure] calls, whatever each one returns or raises. *)
Fixpoint measure_all (bases : list string) (w : World) : World :=
  match bases with
  | [] => w
  | b :: rest => measure_all rest (snd (measure b w))
  end.

(** The transform run once more on the square of a cached camera-basis
    amplitude, followed by a square root: how the recovery path of
    [measure] derives [img_knm]. *)
Definition recompute_knm (cached : loc) : M ndarray :=
  a <- read cached ;;
  squared <- alloc (np_square a) ;;
  r <- ijcam_to_knmslm squared None None 3 ;;
  a <- read r ;;
  ret (np_sqrt a).

(** Both caches are filled, and the recomputation gives [img_knm] back,
    element for element. *)
Definition basis_consistent (w : World) : Prop :=
  exists l r, img_ij (self w) = Some l /\ img_knm (self w) = Some r /\
              fst (recompute_knm l w) = Ret (deref (heap w) r).


(** The call ends in an exception. *)
Definition raises {A} (m : M A) (w : World) : Prop :=
  exists e w', m w = (Raise e, w').

(** Line 251: [self.plot_farfield(self.target)], when asked for. *)
Definition after_plot (plot : bool) (w : World) : World :=
  if plot
  then {| self := self w; heap := heap w;
          trace := trace w ++ [EvPlot (deref (heap w) (target (self w)))] |}
  else w.

(** The controller bound to the instance, if any, has a camera. *)
Definition has_camera (s : FeedbackHologram) : Prop :=
  forall cs, cameraslm s = Some cs -> cam cs <> None.

(** The frame a capture returns, given what the hardware was asked
    before and the pattern that is written first. *)
Definition captured_frame (w : World) : ndarray :=
  get_image (trace w ++ [EvWrite (extract_phase (deref (heap w) (phase (self w)))) true;
                         EvFlush]).

End Transform.

(** ** A concrete set of collaborators, to run the model *)

(** Modelled from the spec: [Hologram._norm] is defined in [_hologram.py],
    which is not among the sources.  The spec calls it the total power,
    a norm over the whole grid; it is taken here as the root of the sum
    of squares.  (On a one-pixel image every norm gives the magnitude of
    the pixel.) *)
Definition l2_norm (a : ndarray) : float :=
  PrimFloat.sqrt (fold_left (fun acc x => (acc + x * x)%float) (concat a) 0%float).

(** A resampling that maps every pixel to itself: what the affine
    transform amounts to when the composite matrix is the identity, the
    offset is zero and the two grids have one shape. *)
Definition resample_identity (a : ndarray) (_ : mat2) (_ : vec2) (_ : shape2) (_ : Z)
    : ndarray := a.

(** A three-tap smoothing of each row, the border repeated. *)
Fixpoint smooth_row (prev : float) (r : list float) : list float :=
  match r with
  | [] => []
  | x :: rest =>
      let next := match rest with y :: _ => y | [] => x end in
      ((prev + 2 * x + next) / 4)%float :: smooth_row x rest
  end.

Definition smooth_rows (a : ndarray) (_ : Z) : ndarray :=
  map (fun r => match r with [] => [] | x :: _ => smooth_row x r end) a.

Definition zeros (sh : shape2) : ndarray :=
  repeat (repeat 0%float (Z.to_nat (snd sh))) (Z.to_nat (fst sh)).

Definition no_flags : Flags :=
  {| flag_feedback := None; flag_blur_ij := None; flag_raw_stats := None |}.

(** Weights start as a copy of the target. *)
Definition copy_target_to_weights (w : World) : World :=
  {| self := self w;
     heap := <[weights (self w) := deref (heap w) (target (self w))]> (heap w);
     trace := trace w |}.

Definition example_externals : Externals := {|
  convert_vector_knm_kxy := fun _ _ v => v;
  convert_vector_kxy_knm := fun _ _ ps => ps;
  ijcam_to_kxyslm := fun _ ps => map (fun p => (float_of_Z (fst p), float_of_Z (snd p))) ps;
  sp_gaussian_filter := smooth_rows;
  cp_affine_transform := resample_identity;
  _norm := l2_norm;
  Hologram__init__ := fun sh _ _ =>
    {| init_shape := sh; init_flags := no_flags; init_target := zeros sh;
       init_weights := zeros sh; init_amp_ff := zeros sh; init_phase := zeros sh |};
  extract_phase := fun ph => ph;
  reset_weights := copy_target_to_weights;
  _update_weights_generic := fun wts _ _ => wts;
  get_image := fun _ => [[2; 1]]%float;
|}.

(** A calibration that sends the centre of the 1x2 grid to the camera
    pixel (1, 0.5), so that the composite map of [ijcam_to_knmslm] is the
    identity. *)
Definition example_calibration : Calibration :=
  {| cal_M := ((1, 0), (0, 1))%float; cal_b := (1, 0.5)%float; cal_a := (0, 0)%float |}.

Definition example_slm : Device :=
  {| _get_source_amplitude := Some [[1; 1]]%float; dev_shape := Some (1, 2)%Z |}.

Definition no_device : Device :=
  {| _get_source_amplitude := None; dev_shape := None |}.

(** A composite controller, with or without its calibration. *)
Definition example_fourier_slm (calib : option Calibration) : Reference :=
  {| slm := Some example_slm; cam := Some {| camera_shape := (1, 2)%Z |};
     fourier_calibration := Some calib; as_device := no_device |}.

(** A bare SLM. *)
Definition example_bare_slm : Reference :=
  {| slm := None; cam := None; fourier_calibration := None; as_device := example_slm |}.

(** An object that is neither. *)
Definition example_unrelated : Reference :=
  {| slm := None; cam := None; fourier_calibration := None; as_device := no_device |}.

(** A hologram over a 1x2 grid; the store holds [target], [weights],
    [amp_ff], [phase] and one more array [extra]. *)
Definition example_world (cs : option Reference) (fl : Flags) (extra : ndarray) : World :=
  {| self := {| cameraslm := cs; shape := (1, 2)%Z; flags := fl;
                target := 0; weights := 1; amp_ff := 2; phase := 3;
                target_ij := None; img_ij := None; img_knm := None;
                cam_points := None; cam_shape := None |};
     heap := [[[1; 0]]; [[1; 1]]; [[1; 0]]; [[0; 0]]; extra]%float;
     trace := [] |}.

Definition blur_flags : Flags :=
  {| flag_feedback := None; flag_blur_ij := Some 1%Z; flag_raw_stats := None |}.

Definition no_kwargs : Kwargs := {| kw_amp := None; kw_slm_shape := None |}.

(** The example hologram bound to a calibrated composite controller. *)
Definition calibrated_world (fl : Flags) (extra : ndarray) : World :=
  example_world (Some (example_fourier_slm (Some example_calibration))) fl extra.

(** The same after one [measure("ij")]: [img_ij] is cached, [img_knm] is not. *)
Definition cached_world : World :=
  snd (measure (E := example_externals) "ij" (calibrated_world no_flags [[0; 0]]%float)).

(** The example hologram with an outdated [img_knm]: [img_ij] has been
    cleared for a new cycle, [img_knm] still refers to the fifth array. *)
Definition stale_world (extra : ndarray) : World :=
  let w := calibrated_world no_flags extra in
  {| self := set_img_knm (Some 4) (self w); heap := heap w; trace := trace w |}.

(** Statistics helpers to run the model: one metric, and a computational
    group that records nothing. *)
Definition example_stats_externals : StatsExternals := {|
  _calculate_stats := fun img _ _ _ =>
    [("power", match img with Some a => l2_norm a | None => 0%float end)];
  _calculate_stats_computational := fun _ _ stats => stats;
  _update_stats_dictionary := fun _ w => w;
|}.

Definition experimental_flags : Flags :=
  {| flag_feedback := Some "experimental"; flag_blur_ij := None; flag_raw_stats := None |}.

Definition computational_flags : Flags :=
  {| flag_feedback := Some "computational"; flag_blur_ij := None; flag_raw_stats := None |}.

(** * Properties *)

(** ** The store *)

Lemma deref_insert_eq (h : list ndarray) (l : loc) (a : ndarray) :
  l < length h -> deref (<[l := a]> h) l = a.
Proof.
  intros Hl. unfold deref. by rewrite list_lookup_insert_eq.
Qed.

Lemma deref_insert_ne (h : list ndarray) (l l' : loc) (a : ndarray) :
  l <> l' -> deref (<[l := a]> h) l' = deref h l'.
Proof.
  intros Hne. unfold deref. by rewrite list_lookup_insert_ne.
Qed.

Lemma deref_app_l (h t : list ndarray) (l : loc) :
  l < length h -> deref (h ++ t) l = deref h l.
Proof.
  intros Hl. unfold deref. by rewrite lookup_app_l.
Qed.

Lemma deref_app_length (h t : list ndarray) (a : ndarray) :
  deref (h ++ a :: t) (length h) = a.
Proof.
  unfold deref. by rewrite list_lookup_middle.
Qed.

Lemma insert_deref_id (h : list ndarray) (l : loc) :
  <[l := deref h l]> h = h.
Proof.
  unfold deref. destruct (h !! l) as [a|] eqn:Hl; simpl.
  - by apply list_insert_id.
  - apply list_insert_ge. by apply lookup_ge_None_1.
Qed.

Lemma insert_app_length (h : list ndarray) (a b : ndarray) :
  <[length h := b]> (h ++ [a]) = h ++ [b].
Proof.
  rewrite insert_app_r_alt by lia.
  by replace (length h - length h) with 0 by lia.
Qed.

(** Rewriting reads and writes of the store to normal form. *)
Ltac store_size :=
  repeat (rewrite length_app || rewrite length_insert); simpl; lia.

Ltac store :=
  repeat first
    [ rewrite deref_app_length
    | rewrite insert_app_length
    | rewrite insert_deref_id
    | rewrite list_insert_insert_eq
    | rewrite deref_insert_eq by store_size
    | rewrite deref_app_l by store_size ].

(** Running the monad's primitives on a given world. *)
Ltac run_monad :=
  cbv beta iota zeta delta
    [bind get_self assert_not_None getattr ret raise read write alloc emit
     get_trace modify_self];
  cbn [self heap trace].

(** ** [ijcam_to_knmslm], step by step *)

Section Run.
Context `{E : Externals}.

(** The whole effect of a call on a calibrated instance. *)
Lemma ijcam_to_knmslm_run (w : World) (img : loc) (out : option loc)
    (blur_ij : option Z) (order : Z) (d : Device) (cal : Calibration) :
  calibrated (self w) d cal -> valid w img -> valid_opt w out ->
  ijcam_to_knmslm img out blur_ij order w =
    ((if (_norm (knm_resampled (self w) d cal order (knm_source w img blur_ij)) =? 0)%float
      then Raise (ValueError msg_no_power)
      else Ret (knm_result (heap w) out)),
     {| self := self w;
        heap := knm_heap (heap w) img out (knm_source w img blur_ij)
                  (normalised (knm_resampled (self w) d cal order (knm_source w img blur_ij)));
        trace := trace w |}).
Proof.
  intros (cs & Hcs & Hcal & Hslm) Himg Hout.
  destruct w as [s h tr]. unfold valid in Himg. simpl in *.
  unfold ijcam_to_knmslm, knm_resampled, knm_source, normalised.
  cbn [self heap trace].
  destruct (composite_affine d (shape s) cal) as [Mx b] eqn:Haff.
  cbv beta iota zeta delta
    [bind get_self assert_not_None getattr ret raise read write alloc fst snd].
  cbn [self heap trace].
  rewrite Hcs, Hcal, Hslm, Haff.
  set (blur := effective_blur (flags s) blur_ij).
  assert (Hfin : forall (l : list ndarray) (a a' : ndarray) (t : float),
    length l = length h ->
    (if (t =? 0)%float
     then fun w : World => (Raise (ValueError msg_no_power), w)
     else fun w : World => (Ret (length (l ++ [a])), w))
      {| self := s; heap := (l ++ [a]) ++ [a']; trace := tr |} =
    (if (t =? 0)%float then Raise (ValueError msg_no_power) else Ret (S (length h)),
     {| self := s; heap := l ++ [a; a']; trace := tr |})).
  { intros l a a' t Hl. rewrite <- app_assoc, length_app, Hl, Nat.add_1_r. simpl.
    by destruct (t =? 0)%float. }
  destruct (0 <? blur)%Z; cbn [self heap trace].
  - set (src := sp_gaussian_filter (deref h img) blur).
    store.
    destruct out as [o|]; cbn [self heap trace knm_heap knm_result].
    + unfold valid_opt, valid in Hout. simpl in Hout. store.
      destruct (_norm _ =? 0)%float; reflexivity.
    + store. apply Hfin, length_insert.
  - store.
    destruct out as [o|]; cbn [self heap trace knm_heap knm_result].
    + unfold valid_opt, valid in Hout. simpl in Hout. store.
      destruct (_norm _ =? 0)%float; reflexivity.
    + store. by apply Hfin.
Qed.

End Run.

(** ** IEEE-754 facts used below *)

Lemma eqb_zero_cases (n : float) :
  (n =? 0)%float = true -> n = 0%float \/ n = (-0)%float.
Proof.
  rewrite FloatAxioms.eqb_spec. intros H.
  destruct (Prim2SF n) as [sg| | |] eqn:Hn; try discriminate.
  - destruct sg; [right|left]; apply Prim2SF_inj; rewrite Hn; reflexivity.
  - destruct s; discriminate.
  - destruct s; discriminate.
Qed.

(** Whatever [x] is, [x * (1 / 0)] is an infinity or a NaN. *)
Lemma mul_inv_zero_nonfinite (n x : float) :
  (n =? 0)%float = true -> nonfinite (x * (1 / n))%float = true.
Proof.
  intros Hn.
  assert (Hinf : Prim2SF (1 / n)%float = S754_infinity false \/
                 Prim2SF (1 / n)%float = S754_infinity true).
  { destruct (eqb_zero_cases n Hn) as [-> | ->]; [left | right]; reflexivity. }
  unfold nonfinite, is_finite, is_nan, is_infinity.
  rewrite Bool.negb_involutive.
  rewrite !FloatAxioms.eqb_spec, FloatAxioms.abs_spec, FloatAxioms.mul_spec.
  destruct Hinf as [-> | ->];
    destruct (Prim2SF x) as [s| s | |s m e]; try destruct s; reflexivity.
Qed.






Lemma imul_inv_zero_nonfinite (n : float) (a : ndarray) :
  (n =? 0)%float = true -> all_elements nonfinite (imul (1 / n)%float a).
Proof.
  intros Hn. unfold all_elements, imul, amap.
  apply Forall_forall. intros row Hrow.
  apply list_elem_of_In, in_map_iff in Hrow as (r & <- & _).
  apply Forall_forall. intros x Hx.
  apply list_elem_of_In, in_map_iff in Hx as (y & <- & _).
  by apply mul_inv_zero_nonfinite.
Qed.

(** ** What the methods leave untouched *)

Section Frames.
Context `{E : Externals}.

(** The transform touches the store only: no attribute, no hardware. *)
Lemma ijcam_to_knmslm_frame (w : World) (img : loc) (out : option loc)
    (blur_ij : option Z) (order : Z) :
  self (snd (ijcam_to_knmslm img out blur_ij order w)) = self w /\
  trace (snd (ijcam_to_knmslm img out blur_ij order w)) = trace w.
Proof.
  destruct w as [s h tr]. unfold ijcam_to_knmslm. run_monad.
  destruct (cameraslm s) as [cs|]; [|done].
  destruct (fourier_calibration cs) as [[cal|]|]; [|done|done].
  destruct (slm cs) as [d|]; [|done].
  destruct (composite_affine d (shape s) cal) as [Mx b].
  destruct (0 <? effective_blur (flags s) blur_ij)%Z; cbn [self heap trace];
    destruct out as [o|]; cbn [self heap trace];
    destruct (_norm _ =? 0)%float; done.
Qed.

(** With a camera-basis image in the cache, [measure] asks nothing of
    the hardware, and does nothing at all unless the ["knm"] image is
    asked for. *)
Lemma measure_cached (w : World) (basis : string) (l : loc) :
  img_ij (self w) = Some l ->
  trace (snd (measure basis w)) = trace w /\
  img_ij (self (snd (measure basis w))) = Some l /\
  cameraslm (self (snd (measure basis w))) = cameraslm (self w) /\
  (String.eqb basis "knm" = false -> measure basis w = (Ret tt, w)).
Proof.
  intros Hij. destruct w as [s h tr]. simpl in Hij.
  unfold measure. run_monad. rewrite Hij.
  destruct (String.eqb basis "knm"); [|done].
  destruct (img_knm s) as [k|]; [done|].
  match goal with
  | |- context [ijcam_to_knmslm ?i ?o ?b ?r ?w0] =>
      pose proof (ijcam_to_knmslm_frame w0 i o b r) as [Hs Ht];
      destruct (ijcam_to_knmslm i o b r w0) as [[r'|e] [s2 h2 tr2]]
  end; simpl in *; subst; done.
Qed.

(** With an empty cache, [measure] either fails on a missing attribute
    and leaves the object as it was, or writes the pattern, grabs one
    frame and caches it, whatever happens afterwards. *)
Lemma measure_fresh (w : World) (basis : string) :
  img_ij (self w) = None ->
  (self (snd (measure basis w)) = self w /\
   captures (trace (snd (measure basis w))) = captures (trace w) /\
   ((forall cs, cameraslm (self w) = Some cs -> cam cs <> None) ->
    trace (snd (measure basis w)) = trace w)) \/
  (img_ij (self (snd (measure basis w))) <> None /\
   cameraslm (self (snd (measure basis w))) = cameraslm (self w) /\
   trace (snd (measure basis w)) =
     trace w ++ [EvWrite (extract_phase (deref (heap w) (phase (self w)))) true;
                 EvFlush; EvGetImage] /\
   (String.eqb basis "knm" = false -> img_knm (self (snd (measure basis w))) = None)).
Proof.
  intros Hij. destruct w as [s h tr]. simpl in Hij.
  unfold measure. run_monad. rewrite Hij.
  destruct (cameraslm s) as [cs|] eqn:Hcs; [|by left].
  destruct (slm cs) as [d|]; [|by left].
  destruct (cam cs) as [c|] eqn:Hcam; cbn [self heap trace].
  - right. rewrite <- !app_assoc. simpl.
    destruct (String.eqb basis "knm").
    + match goal with
      | |- context [ijcam_to_knmslm ?i ?o ?b ?r ?w0] =>
          pose proof (ijcam_to_knmslm_frame w0 i o b r) as [Hs Ht];
          destruct (ijcam_to_knmslm i o b r w0) as [[r'|e] [s2 h2 tr2]]
      end; simpl in *; subst; simpl; rewrite ?Hcs; done.
    + simpl. rewrite Hcs. done.
  - left. split; [done|]. split.
    + unfold captures. cbn [snd trace]. rewrite List.filter_app, length_app. simpl. lia.
    + intros Hc. by destruct (Hc cs eq_refl).
Qed.

End Frames.

(** ** The store after the transform *)

Lemma knm_heap_result (h : list ndarray) (img : loc) (out : option loc)
    (src final : ndarray) :
  img < length h -> (forall o, out = Some o -> o < length h) ->
  deref (knm_heap h img out src final) (knm_result h out) = final.
Proof.
  intros Himg Hout. destruct out as [o|]; simpl.
  - specialize (Hout o eq_refl). store. done.
  - change [np_abs src; final] with ([np_abs src] ++ [final]).
    rewrite app_assoc.
    replace (S (length h)) with (length (<[img := src]> h ++ [np_abs src]))
      by (rewrite length_app, length_insert; simpl; lia).
    apply deref_app_length.
Qed.

Lemma knm_heap_input (h : list ndarray) (img : loc) (out : option loc)
    (src final : ndarray) :
  img < length h -> out <> Some img ->
  deref (knm_heap h img out src final) img = src.
Proof.
  intros Himg Hout. destruct out as [o|]; simpl.
  - rewrite deref_insert_ne by congruence. store. done.
  - store. done.
Qed.

Lemma knm_heap_other (h : list ndarray) (img : loc) (out : option loc)
    (src final : ndarray) (l : loc) :
  l < length h -> l <> img -> out <> Some l ->
  deref (knm_heap h img out src final) l = deref h l.
Proof.
  intros Hl Hne Hout. destruct out as [o|]; simpl.
  - rewrite deref_insert_ne by congruence. store.
    by rewrite deref_insert_ne.
  - store. by rewrite deref_insert_ne.
Qed.

(** ** The coordinate transform *)

Section TransformClaims.
Context `{E : Externals}.

(** C7.  A call of [ijcam_to_knmslm] on an instance that is not
    feedback-capable ([cameraslm] is [None]), or whose calibration is
    absent, fails with [NotCalibratedError] (the [AssertionError] of the
    two [assert]s that open the method), and nothing has been touched. *)
Theorem ijcam_to_knmslm_requires_calibration (w : World) (img : loc)
    (out : option loc) (blur_ij : option Z) (order : Z) :
  not_calibrated (self w) ->
  ijcam_to_knmslm img out blur_ij order w = (Raise NotCalibratedError, w).
Proof.
  intros Hnc. destruct w as [s h tr]. simpl in Hnc.
  unfold ijcam_to_knmslm, bind, get_self. simpl.
  destruct Hnc as [Hnone | (cs & Hcs & Hcal)].
  - rewrite Hnone. reflexivity.
  - rewrite Hcs. simpl. rewrite Hcal. reflexivity.
Qed.


(** C9.  When the norm of the resampled image is zero, [ijcam_to_knmslm]
    has already run [target *= 1 / norm] on the output buffer when it
    raises: a buffer supplied by the caller is left holding the resampled
    magnitude times [1 / 0], every element of which is an infinity or a
    NaN.  Through [update_target] that buffer is [self.target]. *)
Theorem ijcam_to_knmslm_failure_not_atomic (w : World) (img : loc)
    (d : Device) (cal : Calibration) :
  calibrated (self w) d cal -> valid w img ->
  (forall (o : loc) (blur_ij : option Z) (order : Z),
     valid w o ->
     (_norm (knm_resampled (self w) d cal order (knm_source w img blur_ij)) =? 0)%float
       = true ->
     exists w',
       ijcam_to_knmslm img (Some o) blur_ij order w = (Raise OutOfRangeError, w') /\
       deref (heap w') o =
         normalised (knm_resampled (self w) d cal order (knm_source w img blur_ij)) /\
       all_elements nonfinite (deref (heap w') o)) /\
  (forall reset plot : bool,
     valid w (target (self w)) ->
     (_norm (knm_resampled (self w) d cal 0 (knm_source w img None)) =? 0)%float
       = true ->
     exists w',
       update_target img reset plot w = (Raise OutOfRangeError, w') /\
       all_elements nonfinite (deref (heap w') (target (self w)))).
Proof.
  intros Hcal Himg.
  assert (Hone : forall (o : loc) (blur_ij : option Z) (order : Z),
    valid w o ->
    (_norm (knm_resampled (self w) d cal order (knm_source w img blur_ij)) =? 0)%float
      = true ->
    exists w',
      ijcam_to_knmslm img (Some o) blur_ij order w = (Raise OutOfRangeError, w') /\
      deref (heap w') o =
        normalised (knm_resampled (self w) d cal order (knm_source w img blur_ij)) /\
      all_elements nonfinite (deref (heap w') o)).
  { intros o blur_ij order Ho Hzero.
    pose proof (ijcam_to_knmslm_run w img (Some o) blur_ij order d cal Hcal Himg Ho)
      as Hrun.
    rewrite Hzero in Hrun.
    eexists. split; [exact Hrun|]. cbn [heap].
    rewrite (knm_heap_result (heap w) img (Some o))
      by (try exact Himg; intros o' [= <-]; exact Ho).
    split; [reflexivity|]. apply imul_inv_zero_nonfinite, Hzero. }
  split; [exact Hone|].
  intros reset plot Htgt Hzero.
  destruct (Hone (target (self w)) None 0%Z Htgt Hzero) as (w' & Hrun & _ & Hnan).
  exists w'. split; [|exact Hnan].
  unfold update_target, bind, get_self. cbn [self]. by rewrite Hrun.
Qed.

(** C10.  When the blur that applies is greater than zero, the array the
    caller passed as [img] holds its blurred version after the call,
    whether the call returns or raises: the filter is run with
    [output=img].  (The instance passes the two assertions, and the
    output buffer is not the input itself.) *)
Theorem ijcam_to_knmslm_blurs_input_in_place (w : World) (img : loc)
    (out : option loc) (blur_ij : option Z) (order : Z) (d : Device)
    (cal : Calibration) :
  calibrated (self w) d cal -> valid w img -> valid_opt w out ->
  out <> Some img ->
  (0 < effective_blur (flags (self w)) blur_ij)%Z ->
  deref (heap (snd (ijcam_to_knmslm img out blur_ij order w))) img =
    sp_gaussian_filter (deref (heap w) img) (effective_blur (flags (self w)) blur_ij).
Proof.
  intros Hcal Himg Hout Halias Hblur.
  rewrite (ijcam_to_knmslm_run w img out blur_ij order d cal Hcal Himg Hout).
  simpl. rewrite knm_heap_input by assumption.
  unfold knm_source.
  apply Z.ltb_lt in Hblur. by rewrite Hblur.
Qed.

End TransformClaims.

(** ** Target and weights *)

Section ControllerClaims.
Context `{E : Externals}.

(** C8.  [update_target] runs the transform with interpolation order 0
    and with [self.target] as its output buffer: after the call that
    buffer holds the normalised order-0 resampling of the input.  When
    the transform returns, the weights are reinitialised exactly when
    [reset_weights] is true (when it raises, the exception goes through
    and nothing else is done). *)
Theorem update_target_in_place (w : World) (new_target : loc) (reset plot : bool)
    (d : Device) (cal : Calibration) :
  calibrated (self w) d cal -> valid w new_target -> valid w (target (self w)) ->
  exists w1,
    w1 = snd (ijcam_to_knmslm new_target (Some (target (self w))) None 0 w) /\
    self w1 = self w /\
    deref (heap w1) (target (self w)) =
      normalised (knm_resampled (self w) d cal 0 (knm_source w new_target None)) /\
    update_target new_target reset plot w =
      if (_norm (knm_resampled (self w) d cal 0 (knm_source w new_target None)) =? 0)%float
      then (Raise OutOfRangeError, w1)
      else (Ret tt, after_plot plot (if reset then reset_weights w1 else w1)).
Proof.
  intros Hcal Himg Htgt.
  pose proof (ijcam_to_knmslm_run w new_target (Some (target (self w))) None 0 d cal
                Hcal Himg Htgt) as Hrun.
  eexists. split; [reflexivity|].
  unfold update_target, bind, get_self. cbn [self].
  rewrite Hrun. cbn [snd self heap].
  split; [reflexivity|]. split.
  - apply (knm_heap_result (heap w) new_target (Some (target (self w))));
      [exact Himg|]. intros o [= <-]. exact Htgt.
  - destruct (_norm _ =? 0)%float; [reflexivity|].
    destruct reset, plot; reflexivity.
Qed.

(** C2, as the code has it.  A feedback mode other than ["computational"]
    and ["experimental"] raises nothing: [_update_weights] returns and
    leaves weights, cache and hardware as they were.  The only error of
    the dispatch is the [KeyError] of a missing ["feedback"] flag. *)
Theorem _update_weights_ignores_other_modes (w : World) (mode : string) :
  mode <> "computational" -> mode <> "experimental" ->
  (flag_feedback (flags (self w)) = Some mode -> _update_weights w = (Ret tt, w)) /\
  (flag_feedback (flags (self w)) = None ->
   _update_weights w = (Raise (KeyError "feedback"), w)).
Proof.
  intros Hc He. unfold _update_weights, bind, get_self. simpl. split.
  - intros ->. simpl.
    apply String.eqb_neq in Hc, He. by rewrite Hc, He.
  - intros ->. reflexivity.
Qed.

(** C3.  The constructor first probes the object bound to [cameraslm] as
    a composite controller, and keeps it when that succeeds; otherwise it
    probes it as a bare SLM and, when that succeeds, clears
    [self.cameraslm]; when neither succeeds it fails with
    [ConfigurationError].  A composite controller without a calibration
    gives an instance, not an exception, in which [cam_points] and
    [cam_shape] are [None]. *)
Theorem init_resolves_cameraslm (sh : shape2) (arg_target_ij : option loc)
    (r : Reference) (kwargs : Kwargs) (h : list ndarray) (tr : list event) :
  kw_amp kwargs = None ->
  (forall amp s, from_option probe None (slm r) = Some (amp, s) ->
     resolve_cameraslm (Some r) kwargs = Ret (Some r, Some amp, Some s, kwargs) /\
     (fourier_calibration r = Some None ->
      exists w, __init__ sh arg_target_ij (Some r) kwargs h tr = Ret w /\
                cameraslm (self w) = Some r /\
                cam_points (self w) = None /\ cam_shape (self w) = None)) /\
  (forall amp s, from_option probe None (slm r) = None ->
     probe (as_device r) = Some (amp, s) ->
     exists w, __init__ sh arg_target_ij (Some r) kwargs h tr = Ret w /\
               cameraslm (self w) = None /\
               cam_points (self w) = None /\ cam_shape (self w) = None) /\
  (from_option probe None (slm r) = None -> probe (as_device r) = None ->
   __init__ sh arg_target_ij (Some r) kwargs h tr = Raise ConfigurationError).
Proof.
  intros Hkw. split; [|split].
  - intros amp s Hcomposite. split.
    + unfold resolve_cameraslm. by rewrite Hcomposite.
    + intros Hcal. unfold __init__, resolve_cameraslm.
      rewrite Hcomposite, Hkw.
      destruct arg_target_ij as [t|];
        unfold init_camera_geometry, bind, get_self; simpl; rewrite Hcal; simpl;
        eexists; (split; [reflexivity|]); done.
  - intros amp s Hcomposite Hbare. unfold __init__, resolve_cameraslm.
    rewrite Hcomposite, Hbare, Hkw.
    destruct arg_target_ij as [t|];
      unfold init_camera_geometry, bind, get_self; simpl;
      eexists; (split; [reflexivity|]); done.
  - intros Hcomposite Hbare. unfold __init__, resolve_cameraslm.
    by rewrite Hcomposite, Hbare.
Qed.

End ControllerClaims.

(** ** The measurement cache *)

Section CacheClaims.
Context `{E : Externals}.

Lemma captures_app (tr tr' : list event) :
  captures (tr ++ tr') = captures tr + captures tr'.
Proof.
  unfold captures. by rewrite List.filter_app, length_app.
Qed.

Lemma slm_writes_app (tr tr' : list event) :
  slm_writes (tr ++ tr') = slm_writes tr + slm_writes tr'.
Proof.
  unfold slm_writes. by rewrite List.filter_app, length_app.
Qed.

(** Once [img_ij] is there, no sequence of calls reaches the hardware. *)
Lemma measure_all_cached (bases : list string) (w : World) (l : loc) :
  img_ij (self w) = Some l -> trace (measure_all bases w) = trace w.
Proof.
  revert w. induction bases as [|b bases IH]; intros w Hij; [done|].
  simpl. destruct (measure_cached w b l Hij) as (Htr & Hij' & _).
  rewrite (IH _ Hij'). exact Htr.
Qed.

(** Frames grabbed by a sequence of calls: one at most. *)
Lemma measure_all_captures (bases : list string) (w : World) :
  captures (trace (measure_all bases w)) <= S (captures (trace w)).
Proof.
  revert w. induction bases as [|b bases IH]; intros w; [simpl; lia|].
  simpl. destruct (img_ij (self w)) as [l|] eqn:Hij.
  - destruct (measure_cached w b l Hij) as (Htr & Hij' & _).
    rewrite (measure_all_cached bases _ l Hij'), Htr. lia.
  - destruct (measure_fresh w b Hij) as [(_ & Hcap & _) | (Hij' & _ & Htr & _)].
    + rewrite <- Hcap. apply IH.
    + destruct (img_ij (self (snd (measure b w)))) as [l|] eqn:Hl; [|done].
      rewrite (measure_all_cached bases _ l Hl), Htr, captures_app.
      unfold captures at 2. simpl. lia.
Qed.

(** Patterns written by a sequence of calls: one at most, when the
    controller has its camera. *)
Lemma measure_all_writes (bases : list string) (w : World) :
  has_camera (self w) ->
  slm_writes (trace (measure_all bases w)) <= S (slm_writes (trace w)).
Proof.
  revert w. induction bases as [|b bases IH]; intros w Hcam; [simpl; lia|].
  simpl. destruct (img_ij (self w)) as [l|] eqn:Hij.
  - destruct (measure_cached w b l Hij) as (Htr & Hij' & _).
    rewrite (measure_all_cached bases _ l Hij'), Htr. lia.
  - destruct (measure_fresh w b Hij) as [(Hself & _ & Htr) | (Hij' & _ & Htr & _)].
    + rewrite <- (Htr Hcam). apply IH. unfold has_camera. by rewrite Hself.
    + destruct (img_ij (self (snd (measure b w)))) as [l|] eqn:Hl; [|done].
      rewrite (measure_all_cached bases _ l Hl), Htr, slm_writes_app.
      unfold slm_writes at 2. simpl. lia.
Qed.

(** C4.  Over any sequence of [measure] calls with nothing clearing the
    cache in between, at most one frame is grabbed and at most one
    pattern is written; once [img_ij] is there the hardware is not
    reached again, and [measure("ij")] does nothing. *)
Theorem measure_captures_at_most_once (bases : list string) (w : World) :
  has_camera (self w) ->
  captures (trace (measure_all bases w)) <= S (captures (trace w)) /\
  slm_writes (trace (measure_all bases w)) <= S (slm_writes (trace w)) /\
  (img_ij (self w) <> None ->
   trace (measure_all bases w) = trace w /\ measure "ij" w = (Ret tt, w)).
Proof.
  intros Hcam. split; [apply measure_all_captures|].
  split; [by apply measure_all_writes|].
  intros Hij. destruct (img_ij (self w)) as [l|] eqn:Hl; [|done].
  split.
  - by apply (measure_all_cached bases w l).
  - by apply (measure_cached w "ij" l Hl).
Qed.

(** C5.  [measure] keeps the cache consistent: [img_knm] is never there
    while [img_ij] is absent.  And a fresh capture asked for in a basis
    other than ["knm"] leaves [img_knm] absent, whatever it held before:
    with an SLM and a camera to reach, the call returns, [img_ij] is
    filled and [img_knm] is erased, also when [img_knm] was outdated,
    that is, there while [img_ij] was absent. *)
Theorem measure_keeps_cache_consistent (w : World) (basis : string) :
  (cache_consistent (self w) -> cache_consistent (self (snd (measure basis w)))) /\
  (img_ij (self w) = None -> String.eqb basis "knm" = false ->
   (img_ij (self (snd (measure basis w))) <> None ->
    img_knm (self (snd (measure basis w))) = None) /\
   (forall (cs : Reference) (d : Device) (c : Camera),
      cameraslm (self w) = Some cs -> slm cs = Some d -> cam cs = Some c ->
      fst (measure basis w) = Ret tt /\
      img_ij (self (snd (measure basis w))) <> None /\
      img_knm (self (snd (measure basis w))) = None)).
Proof.
  split; [|intros Hij Hb; split].
  - intros Hinv. destruct (img_ij (self w)) as [l|] eqn:Hij.
    + destruct (measure_cached w basis l Hij) as (_ & Hij' & _).
      unfold cache_consistent. rewrite Hij'. done.
    + destruct (measure_fresh w basis Hij) as [(Hself & _) | (Hij' & _)].
      * by rewrite Hself.
      * by intros _.
  - destruct (measure_fresh w basis Hij) as [(Hself & _) | (_ & _ & _ & Hknm)].
    + rewrite Hself. intros Hsome. by rewrite Hij in Hsome.
    + intros _. by apply Hknm.
  - intros cs d c Hcs Hslm Hcam. destruct w as [s h tr]. simpl in Hij, Hcs.
    unfold measure. run_monad. rewrite Hij, Hcs. cbn [getattr bind ret].
    rewrite Hslm, Hcam, Hb. done.
Qed.

End CacheClaims.

(** ** The two bases of the cache *)

Section BasisClaims.
Context `{E : Externals}.

Lemma knm_source_alloc (s : FeedbackHologram) (h : list ndarray) (tr : list event)
    (a : ndarray) (blur_ij : option Z) :
  knm_source {| self := s; heap := h ++ [a]; trace := tr |} (length h) blur_ij =
  if (0 <? effective_blur (flags s) blur_ij)%Z
  then sp_gaussian_filter a (effective_blur (flags s) blur_ij)
  else a.
Proof.
  unfold knm_source. cbn [self heap]. by rewrite deref_app_length.
Qed.

(** C6, as the code has it.  When [measure("knm")] fills [img_knm] from a
    cached [img_ij] (the recovery path), squaring [img_ij] and running
    the transform and the square root once more gives [img_knm] back,
    element for element. *)
Theorem measure_knm_recovery_consistent (w : World) (l : loc) (d : Device)
    (cal : Calibration) :
  calibrated (self w) d cal -> valid w l ->
  img_ij (self w) = Some l -> img_knm (self w) = None ->
  fst (measure "knm" w) = Ret tt ->
  basis_consistent (snd (measure "knm" w)).
Proof.
  intros Hcal Hl Hij Hknm.
  destruct w as [s h tr]. unfold valid in Hl. simpl in Hcal, Hl, Hij, Hknm.
  unfold measure. run_monad. rewrite Hij, Hknm. cbn [String.eqb Ascii.eqb Bool.eqb].
  set (sq := np_square (deref h l)).
  rewrite (ijcam_to_knmslm_run {| self := s; heap := h ++ [sq]; trace := tr |}
             (length h) None None 3 d cal Hcal)
    by (unfold valid; simpl; store_size || done).
  cbn [self heap trace]. rewrite knm_source_alloc.
  set (src := if (0 <? effective_blur (flags s) None)%Z
              then sp_gaussian_filter sq (effective_blur (flags s) None) else sq).
  set (res := knm_resampled s d cal 3 src).
  destruct (_norm res =? 0)%float eqn:Hnorm; [discriminate|].
  cbn [fst snd self heap trace knm_result]. intros _.
  set (fin := normalised res).
  set (r := S (length (h ++ [sq]))).
  set (K := knm_heap (h ++ [sq]) (length h) None src fin).
  assert (Hr : deref K r = fin).
  { apply (knm_heap_result (h ++ [sq]) (length h) None); [store_size | done]. }
  assert (HrK : r < length K).
  { unfold K, r. simpl. store_size. }
  assert (HlK : deref K l = deref h l).
  { unfold K. rewrite knm_heap_other by (store_size || done || lia).
    by rewrite deref_app_l. }
  rewrite Hr.
  exists l, r. cbn [self heap img_ij img_knm set_img_knm].
  split; [exact Hij|]. split; [reflexivity|].
  rewrite deref_insert_eq by exact HrK.
  unfold recompute_knm. run_monad.
  rewrite deref_insert_ne by (unfold r; rewrite length_app; simpl; lia).
  rewrite HlK. fold sq.
  set (s' := set_img_knm (Some r) s).
  assert (Hcal' : calibrated s' d cal) by exact Hcal.
  set (H' := <[r := np_sqrt fin]> K).
  rewrite (ijcam_to_knmslm_run {| self := s'; heap := H' ++ [sq]; trace := tr |}
             (length H') None None 3 d cal Hcal')
    by (unfold valid; simpl; store_size || done).
  cbn [self heap trace]. rewrite knm_source_alloc.
  change (flags s') with (flags s). fold src.
  change (knm_resampled s' d cal 3 src) with res. rewrite Hnorm.
  cbn [fst knm_result]. fold fin.
  change (S (length (H' ++ [sq]))) with (knm_result (H' ++ [sq]) None).
  rewrite (knm_heap_result (H' ++ [sq]) (length H') None src fin)
    by (store_size || done).
  reflexivity.
Qed.

End BasisClaims.

(** * The model at work: concrete runs *)

(** Two binary64 numbers that differ are not equal. *)
Ltac floats_differ H :=
  match type of H with
  | ?x = ?y =>
      apply (f_equal (fun z => PrimFloat.eqb z y)) in H;
      vm_compute in H; discriminate H
  end.

(** The composite affine map of the example: identity matrix, no offset. *)
Example composite_affine_example :
  composite_affine (E := example_externals) example_slm (1, 2)%Z example_calibration
    = (((1, 0), (0, 1)), (0, 0))%float.
Proof.
  vm_compute. reflexivity.
Qed.

Lemma ijcam_to_knmslm_requires_calibration_witness :
  let w := example_world (Some (example_fourier_slm None)) no_flags [[1; 2]]%float in
  not_calibrated (self w) /\
  ijcam_to_knmslm (E := example_externals) 4 None None 3 w = (Raise NotCalibratedError, w).
Proof.
  intros w.
  assert (H : not_calibrated (self w)).
  { right. eexists. split; reflexivity. }
  split; [exact H|].
  exact (ijcam_to_knmslm_requires_calibration (E := example_externals) w 4 None None 3 H).
Defined.

Lemma calibrated_world_calibrated (fl : Flags) (extra : ndarray) :
  calibrated (self (calibrated_world fl extra)) example_slm example_calibration.
Proof.
  eexists. repeat split.
Qed.



Lemma ijcam_to_knmslm_failure_not_atomic_witness :
  let w := calibrated_world no_flags [[0; 0]]%float in
  (exists w',
     ijcam_to_knmslm (E := example_externals) 4 (Some 2) None 3 w
       = (Raise OutOfRangeError, w') /\
     deref (heap w') 2 = [[nan; nan]]%float) /\
  (exists w',
     update_target (E := example_externals) 4 true false w = (Raise OutOfRangeError, w') /\
     all_elements nonfinite (deref (heap w') 0)).
Proof.
  intros w.
  destruct (ijcam_to_knmslm_failure_not_atomic (E := example_externals) w 4
              example_slm example_calibration
              (calibrated_world_calibrated _ _)) as [Hbuf Hupd].
  - unfold valid. simpl. lia.
  - split.
    + destruct (Hbuf 2 None 3%Z) as (w' & Hrun & Hd & _).
      * unfold valid. simpl. lia.
      * vm_compute. reflexivity.
      * exists w'. split; [exact Hrun|]. rewrite Hd. vm_compute. reflexivity.
    + apply (Hupd true false).
      * unfold valid. simpl. lia.
      * vm_compute. reflexivity.
Defined.

Lemma ijcam_to_knmslm_blurs_input_in_place_witness :
  let w := calibrated_world no_flags [[4; 0]]%float in
  deref (heap (snd (ijcam_to_knmslm (E := example_externals) 4 None (Some 1%Z) 3 w))) 4
    = [[3; 1]]%float.
Proof.
  intros w.
  rewrite (ijcam_to_knmslm_blurs_input_in_place (E := example_externals) w 4 None
             (Some 1%Z) 3 example_slm example_calibration
             (calibrated_world_calibrated _ _)).
  - vm_compute. reflexivity.
  - unfold valid. simpl. lia.
  - exact I.
  - discriminate.
  - simpl. lia.
Defined.

Lemma update_target_in_place_witness :
  let w := calibrated_world no_flags [[3; 4]]%float in
  exists w1,
    update_target (E := example_externals) 4 true false w
      = (Ret tt, copy_target_to_weights w1) /\
    deref (heap w1) 0 = [[3 * (1 / 5); 4 * (1 / 5)]]%float /\
    deref (heap (copy_target_to_weights w1)) 1 = [[3 * (1 / 5); 4 * (1 / 5)]]%float.
Proof.
  intros w.
  destruct (update_target_in_place (E := example_externals) w 4 true false
              example_slm example_calibration
              (calibrated_world_calibrated _ _)) as (w1 & Hw1 & _ & Hd & Hrun).
  - unfold valid. simpl. lia.
  - unfold valid. simpl. lia.
  - exists w1. split; [exact Hrun|]. split.
    + change 0 with (target (self w)) at 1. rewrite Hd. vm_compute. reflexivity.
    + rewrite Hw1. vm_compute. reflexivity.
Defined.

(** C2, as stated, fails: with the flag set to ["adaptive"] the call
    returns normally. *)
Lemma unknown_feedback_mode_is_silent :
  ~ raises (_update_weights (E := example_externals))
      (calibrated_world
         {| flag_feedback := Some "adaptive"; flag_blur_ij := None;
            flag_raw_stats := None |} [[1; 2]]%float).
Proof.
  intros (e & w' & Hrun). vm_compute in Hrun. discriminate Hrun.
Qed.

Lemma _update_weights_ignores_other_modes_witness :
  let w := calibrated_world
             {| flag_feedback := Some "adaptive"; flag_blur_ij := None;
                flag_raw_stats := None |} [[1; 2]]%float in
  _update_weights (E := example_externals) w = (Ret tt, w).
Proof.
  intros w.
  refine (proj1 (_update_weights_ignores_other_modes (E := example_externals)
                   w "adaptive" _ _) eq_refl); discriminate.
Defined.

Lemma init_resolves_cameraslm_witness :
  (exists w, __init__ (E := example_externals) (1, 2)%Z None
               (Some (example_fourier_slm None)) no_kwargs [] [] = Ret w /\
             cameraslm (self w) = Some (example_fourier_slm None) /\
             cam_points (self w) = None /\ cam_shape (self w) = None) /\
  (exists w, __init__ (E := example_externals) (1, 2)%Z None
               (Some example_bare_slm) no_kwargs [] [] = Ret w /\
             cameraslm (self w) = None /\
             cam_points (self w) = None /\ cam_shape (self w) = None) /\
  __init__ (E := example_externals) (1, 2)%Z None
    (Some example_unrelated) no_kwargs [] [] = Raise ConfigurationError.
Proof.
  split; [|split].
  - exact (proj2 (proj1 (init_resolves_cameraslm (E := example_externals) (1, 2)%Z None
                           (example_fourier_slm None) no_kwargs [] [] eq_refl)
                    [[1; 1]]%float (1, 2)%Z eq_refl) eq_refl).
  - exact (proj1 (proj2 (init_resolves_cameraslm (E := example_externals) (1, 2)%Z None
                           example_bare_slm no_kwargs [] [] eq_refl))
             [[1; 1]]%float (1, 2)%Z eq_refl eq_refl).
  - exact (proj2 (proj2 (init_resolves_cameraslm (E := example_externals) (1, 2)%Z None
                           example_unrelated no_kwargs [] [] eq_refl))
             eq_refl eq_refl).
Defined.

Lemma calibrated_world_has_camera (fl : Flags) (extra : ndarray) :
  has_camera (self (calibrated_world fl extra)).
Proof.
  intros cs Hcs. simpl in Hcs. injection Hcs as <-. discriminate.
Qed.

Lemma measure_captures_at_most_once_witness :
  let w := calibrated_world no_flags [[0; 0]]%float in
  let bases := ["ij"; "knm"; "ij"; "knm"] in
  captures (trace (measure_all (E := example_externals) bases w)) = 1 /\
  slm_writes (trace (measure_all (E := example_externals) bases w)) <= 1 /\
  measure (E := example_externals) "ij" cached_world = (Ret tt, cached_world).
Proof.
  intros w bases. split; [vm_compute; reflexivity|]. split.
  - exact (proj1 (proj2 (measure_captures_at_most_once (E := example_externals)
                           bases w (calibrated_world_has_camera _ _)))).
  - refine (proj2 (proj2 (proj2 (measure_captures_at_most_once (E := example_externals)
                                   [] cached_world _)) _)).
    + intros cs Hcs. vm_compute in Hcs. injection Hcs as <-. discriminate.
    + vm_compute. discriminate.
Defined.

Lemma measure_keeps_cache_consistent_witness :
  let w := stale_world [[0; 0]]%float in
  img_ij (self w) = None /\ img_knm (self w) = Some 4 /\
  fst (measure (E := example_externals) "ij" w) = Ret tt /\
  img_ij (self (snd (measure (E := example_externals) "ij" w))) <> None /\
  img_knm (self (snd (measure (E := example_externals) "ij" w))) = None.
Proof.
  intros w. split; [reflexivity|]. split; [reflexivity|].
  exact (proj2 (proj2 (measure_keeps_cache_consistent (E := example_externals) w "ij")
                  eq_refl eq_refl)
           _ _ _ eq_refl eq_refl eq_refl).
Defined.

(** C6, as stated, fails on the fresh-capture path.  The frame [[2; 1]]
    is transformed as captured, while [img_ij] keeps its square root:
    [sqrt 2] squared is not 2 in binary64, and the recomputation differs
    from [img_knm] in the last place.  With a blur flag the frame is
    blurred in place, once, before both caches are filled; the
    recomputation blurs it a second time. *)
Lemma fresh_capture_not_bit_for_bit :
  (fst (measure (E := example_externals) "knm" (calibrated_world no_flags [[0; 0]]%float))
     = Ret tt /\
   ~ basis_consistent (E := example_externals)
       (snd (measure (E := example_externals) "knm"
               (calibrated_world no_flags [[0; 0]]%float)))) /\
  (fst (measure (E := example_externals) "knm" (calibrated_world blur_flags [[0; 0]]%float))
     = Ret tt /\
   ~ basis_consistent (E := example_externals)
       (snd (measure (E := example_externals) "knm"
               (calibrated_world blur_flags [[0; 0]]%float)))).
Proof.
  split; (split; [vm_compute; reflexivity|]);
    intros (l & r & Hl & Hr & Hre);
    vm_compute in Hl; injection Hl as <-;
    vm_compute in Hr; injection Hr as <-;
    apply (f_equal (fun o => match o with
                              | Ret [[_; x]] => x
                              | _ => 0%float
                              end)) in Hre;
    vm_compute in Hre; floats_differ Hre.
Qed.

Lemma measure_knm_recovery_consistent_witness :
  fst (measure (E := example_externals) "knm" cached_world) = Ret tt /\
  basis_consistent (E := example_externals)
    (snd (measure (E := example_externals) "knm" cached_world)).
Proof.
  assert (Hrun : fst (measure (E := example_externals) "knm" cached_world) = Ret tt)
    by (vm_compute; reflexivity).
  split; [exact Hrun|].
  refine (measure_knm_recovery_consistent (E := example_externals) cached_world 6
            example_slm example_calibration _ _ _ _ Hrun).
  - eexists. repeat split.
  - unfold valid. vm_compute. lia.
  - vm_compute. reflexivity.
  - vm_compute. reflexivity.
Defined.

(** * Further properties of the cache *)

Section CacheExtras.
Context `{E : Externals}.

(** With its [slm] and [cam] in place, a call on an empty cache writes
    the pattern, flushes and grabs one frame. *)
Lemma measure_fresh_trace (w : World) (basis : string) (cs : Reference)
    (d : Device) (c : Camera) :
  img_ij (self w) = None ->
  cameraslm (self w) = Some cs -> slm cs = Some d -> cam cs = Some c ->
  trace (snd (measure basis w)) =
    trace w ++ [EvWrite (extract_phase (deref (heap w) (phase (self w)))) true;
                EvFlush; EvGetImage].
Proof.
  intros Hij Hcs Hslm Hcam.
  destruct (measure_fresh w basis Hij) as [(_ & _ & Htr) | (_ & _ & Htr & _)];
    [|exact Htr].
  exfalso.
  assert (Hsame : trace (snd (measure basis w)) = trace w).
  { apply Htr. intros cs' Hcs'. rewrite Hcs in Hcs'. injection Hcs' as <-.
    by rewrite Hcam. }
  revert Hsame. destruct w as [s h tr]. simpl in Hij, Hcs.
  unfold measure. run_monad. rewrite Hij, Hcs. cbn [getattr]. run_monad.
  rewrite Hslm, Hcam. cbn [self heap trace].
  destruct (String.eqb basis "knm").
  - match goal with
    | |- context [ijcam_to_knmslm ?i ?o ?b ?r ?w0] =>
        pose proof (ijcam_to_knmslm_frame w0 i o b r) as [_ Ht];
        destruct (ijcam_to_knmslm i o b r w0) as [[r'|e] [s2 h2 tr2]]
    end; simpl in *; subst; intros Hsame;
      apply (f_equal length) in Hsame; rewrite !length_app in Hsame;
      simpl in Hsame; lia.
  - simpl. intros Hsame.
    apply (f_equal length) in Hsame. rewrite !length_app in Hsame.
    simpl in Hsame. lia.
Qed.

Lemma update_weights_in_place_trace (fb : option loc) (w : World) :
  trace (snd (update_weights_in_place fb w)) = trace w.
Proof.
  destruct w as [s h tr]. unfold update_weights_in_place. run_monad.
  destruct fb; reflexivity.
Qed.

(** In ["experimental"] mode the weight update reaches the hardware
    through [measure("knm")] only. *)
Lemma _update_weights_experimental_trace (w : World) :
  flag_feedback (flags (self w)) = Some "experimental" ->
  trace (snd (_update_weights w)) = trace (snd (measure "knm" w)).
Proof.
  intros Hflag. unfold _update_weights, bind, get_self.
  rewrite Hflag. cbn [ret String.eqb Ascii.eqb Bool.eqb fst snd].
  destruct (measure "knm" w) as [[[]|e] w']; cbn [fst snd]; [|reflexivity].
  apply update_weights_in_place_trace.
Qed.

(** X1.  A weight update in ["experimental"] mode grabs exactly one frame
    (after one pattern write) when [img_ij] is not cached, and does not
    reach the hardware at all when it is. *)
Theorem _update_weights_experimental_fetches (w : World) :
  flag_feedback (flags (self w)) = Some "experimental" ->
  (img_ij (self w) <> None -> trace (snd (_update_weights w)) = trace w) /\
  (forall cs d c,
     img_ij (self w) = None ->
     cameraslm (self w) = Some cs -> slm cs = Some d -> cam cs = Some c ->
     captures (trace (snd (_update_weights w))) = S (captures (trace w)) /\
     slm_writes (trace (snd (_update_weights w))) = S (slm_writes (trace w))).
Proof.
  intros Hflag. rewrite (_update_weights_experimental_trace w Hflag). split.
  - intros Hij. destruct (img_ij (self w)) as [l|] eqn:Hl; [|done].
    by destruct (measure_cached w "knm" l Hl) as (Htr & _).
  - intros cs d c Hij Hcs Hslm Hcam.
    rewrite (measure_fresh_trace w "knm" cs d c Hij Hcs Hslm Hcam).
    rewrite captures_app, slm_writes_app.
    unfold captures at 2, slm_writes at 2. simpl. lia.
Qed.

(** X2.  When [measure("knm")] on an empty cache fails in the transform
    for want of a calibration, the frame has been grabbed all the same
    and [img_ij] is left holding it as captured, not its square root
    (line 236 is not reached); [img_knm] is as it was, and later calls
    find the cache filled. *)
Theorem measure_knm_failure_caches_frame (w : World) (cs : Reference)
    (d : Device) (c : Camera) :
  img_ij (self w) = None ->
  cameraslm (self w) = Some cs -> slm cs = Some d -> cam cs = Some c ->
  fourier_calibration cs = Some None ->
  exists w',
    measure "knm" w = (Raise NotCalibratedError, w') /\
    img_ij (self w') = Some (length (heap w)) /\
    img_knm (self w') = img_knm (self w) /\
    deref (heap w') (length (heap w)) =
      get_image (trace w ++ [EvWrite (extract_phase (deref (heap w) (phase (self w)))) true;
                             EvFlush]) /\
    measure "ij" w' = (Ret tt, w').
Proof.
  intros Hij Hcs Hslm Hcam Hcal.
  destruct w as [s h tr]. simpl in Hij, Hcs.
  unfold measure at 1. run_monad. rewrite Hij, Hcs. cbn [getattr]. run_monad.
  rewrite Hslm, Hcam. cbn [self heap trace String.eqb Ascii.eqb Bool.eqb].
  unfold ijcam_to_knmslm. run_monad.
  cbn [cameraslm set_img_ij]. rewrite Hcs, Hcal.
  eexists. split; [reflexivity|].
  cbn [self heap trace img_ij img_knm set_img_ij].
  split; [reflexivity|]. split; [reflexivity|]. split.
  - rewrite <- !app_assoc. apply deref_app_length.
  - unfold measure. run_monad. reflexivity.
Qed.

End CacheExtras.

Lemma _update_weights_experimental_fetches_witness :
  let fl := {| flag_feedback := Some "experimental"; flag_blur_ij := None;
               flag_raw_stats := None |} in
  let w := calibrated_world fl [[0; 0]]%float in
  captures (trace (snd (_update_weights (E := example_externals) w))) = 1 /\
  slm_writes (trace (snd (_update_weights (E := example_externals) w))) = 1.
Proof.
  intros fl w.
  exact (proj2 (_update_weights_experimental_fetches (E := example_externals) w eq_refl)
           (example_fourier_slm (Some example_calibration)) example_slm
           {| camera_shape := (1, 2)%Z |} eq_refl eq_refl eq_refl eq_refl).
Defined.

Lemma measure_knm_failure_caches_frame_witness :
  let w := example_world (Some (example_fourier_slm None)) no_flags [[0; 0]]%float in
  exists w',
    measure (E := example_externals) "knm" w = (Raise NotCalibratedError, w') /\
    img_ij (self w') = Some 5 /\
    deref (heap w') 5 = [[2; 1]]%float.
Proof.
  intros w.
  destruct (measure_knm_failure_caches_frame (E := example_externals) w
              (example_fourier_slm None) example_slm {| camera_shape := (1, 2)%Z |}
              eq_refl eq_refl eq_refl eq_refl eq_refl)
    as (w' & Hrun & Hij & _ & Hframe & _).
  exists w'. split; [exact Hrun|]. split; [exact Hij|]. exact Hframe.
Defined.

(** * Beyond the claims: what the methods change and what they leave *)

Section Effects.
Context `{E : Externals}.

(** Everything a call of [ijcam_to_knmslm] can do to a world: attributes
    and hardware are as before, the store only grows, and an array that
    is neither the output buffer nor a blurred input keeps its
    contents.  The array that is returned is the output buffer when one
    was given and a new array otherwise. *)
Lemma ijcam_to_knmslm_effect (w : World) (img : loc) (out : option loc)
    (blur_ij : option Z) (order : Z) :
  valid w img -> valid_opt w out ->
  self (snd (ijcam_to_knmslm img out blur_ij order w)) = self w /\
  trace (snd (ijcam_to_knmslm img out blur_ij order w)) = trace w /\
  length (heap w) <= length (heap (snd (ijcam_to_knmslm img out blur_ij order w))) /\
  (forall l, l < length (heap w) -> out <> Some l ->
     l <> img \/ (effective_blur (flags (self w)) blur_ij <= 0)%Z ->
     deref (heap (snd (ijcam_to_knmslm img out blur_ij order w))) l = deref (heap w) l) /\
  (forall r, fst (ijcam_to_knmslm img out blur_ij order w) = Ret r ->
     r = knm_result (heap w) out /\
     r < length (heap (snd (ijcam_to_knmslm img out blur_ij order w)))).
Proof.
  intros Himg Hout.
  destruct (ijcam_to_knmslm_frame w img out blur_ij order) as [Hself Htr].
  split; [exact Hself|]. split; [exact Htr|]. clear Hself Htr.
  destruct (cameraslm (self w)) as [cs|] eqn:Hcs.
  2: { destruct w as [s h tr]. simpl in Hcs. unfold ijcam_to_knmslm. run_monad.
       rewrite Hcs. simpl. repeat split; try done. }
  destruct (fourier_calibration cs) as [[cal|]|] eqn:Hcal.
  2,3: destruct w as [s h tr]; simpl in Hcs; unfold ijcam_to_knmslm; run_monad;
       rewrite Hcs; cbn [assert_not_None]; run_monad; rewrite Hcal; simpl;
       repeat split; done.
  destruct (slm cs) as [d|] eqn:Hslm.
  2: { destruct w as [s h tr]. simpl in Hcs. unfold ijcam_to_knmslm. run_monad.
       rewrite Hcs, Hcal, Hslm. simpl. repeat split; done. }
  assert (Hc : calibrated (self w) d cal) by (exists cs; done).
  rewrite (ijcam_to_knmslm_run w img out blur_ij order d cal Hc Himg Hout).
  cbn [fst snd heap].
  split; [|split].
  - destruct out; simpl; store_size.
  - intros l Hl Hne [Hneq | Hblur].
    + by apply knm_heap_other.
    + destruct (decide (l = img)) as [-> | Hneq]; [|by apply knm_heap_other].
      rewrite knm_heap_input by done.
      unfold knm_source.
      by replace (0 <? _)%Z with false by (symmetry; apply Z.ltb_ge; exact Hblur).
  - intros r Hr.
    destruct (_norm _ =? 0)%float; [discriminate|]. injection Hr as <-.
    split; [reflexivity|].
    destruct out as [o|]; simpl; simpl in Hout; unfold valid in *; store_size.
Qed.

End Effects.

Section TransformEffects.
Context `{E : Externals}.

(** X3.  [ijcam_to_knmslm] works on the store alone: it changes no
    attribute of the hologram and asks nothing of the hardware, and every
    array other than its input and its output buffer holds afterwards
    what it held before, whether the call returns or raises and whether
    or not the instance is calibrated. *)
Theorem ijcam_to_knmslm_touches_only_its_buffers (w : World) (img : loc)
    (out : option loc) (blur_ij : option Z) (order : Z) :
  valid w img -> valid_opt w out ->
  self (snd (ijcam_to_knmslm img out blur_ij order w)) = self w /\
  trace (snd (ijcam_to_knmslm img out blur_ij order w)) = trace w /\
  (forall l, valid w l -> l <> img -> out <> Some l ->
     deref (heap (snd (ijcam_to_knmslm img out blur_ij order w))) l = deref (heap w) l).
Proof.
  intros Himg Hout.
  destruct (ijcam_to_knmslm_effect w img out blur_ij order Himg Hout)
    as (Hself & Htr & _ & Hkeep & _).
  split; [exact Hself|]. split; [exact Htr|].
  intros l Hl Hne Hnout. apply Hkeep; [exact Hl | exact Hnout | by left].
Qed.

(** X4.  When the blur that applies is zero or negative the input array
    is not written: it holds afterwards what it held before.  An explicit
    [blur_ij] takes precedence over the ["blur_ij"] flag, so passing
    [blur_ij=0] protects the input whatever the flag says. *)
Theorem ijcam_to_knmslm_keeps_input_without_blur (w : World) (img : loc)
    (out : option loc) (blur_ij : option Z) (order : Z) :
  valid w img -> valid_opt w out -> out <> Some img ->
  ((effective_blur (flags (self w)) blur_ij <= 0)%Z ->
   deref (heap (snd (ijcam_to_knmslm img out blur_ij order w))) img = deref (heap w) img) /\
  deref (heap (snd (ijcam_to_knmslm img out (Some 0%Z) order w))) img = deref (heap w) img.
Proof.
  intros Himg Hout Halias. split.
  - intros Hblur.
    destruct (ijcam_to_knmslm_effect w img out blur_ij order Himg Hout)
      as (_ & _ & _ & Hkeep & _).
    apply Hkeep; [exact Himg | exact Halias | by right].
  - destruct (ijcam_to_knmslm_effect w img out (Some 0%Z) order Himg Hout)
      as (_ & _ & _ & Hkeep & _).
    apply Hkeep; [exact Himg | exact Halias | right; simpl; lia].
Qed.

End TransformEffects.

Section MeasureEffects.
Context `{E : Externals}.

(** With both images cached, [measure] does nothing, whatever the basis. *)
Lemma measure_cached_both (w : World) (basis : string) (l k : loc) :
  img_ij (self w) = Some l -> img_knm (self w) = Some k ->
  measure basis w = (Ret tt, w).
Proof.
  intros Hij Hknm. destruct w as [s h tr]. simpl in Hij, Hknm.
  unfold measure. run_monad. rewrite Hij, Hknm.
  by destruct (String.eqb basis "knm").
Qed.

(** A call that returns leaves [img_ij] cached, and [img_knm] too when
    the basis was ["knm"]. *)
Lemma measure_returns_filled (w : World) (basis : string) :
  fst (measure basis w) = Ret tt ->
  img_ij (self (snd (measure basis w))) <> None /\
  (String.eqb basis "knm" = true -> img_knm (self (snd (measure basis w))) <> None).
Proof.
  destruct w as [s h tr]. unfold measure. run_monad.
  destruct (img_ij s) as [l|] eqn:Hij.
  - destruct (String.eqb basis "knm") eqn:Hb.
    + destruct (img_knm s) as [k|] eqn:Hknm.
      * simpl. intros _. rewrite Hij, Hknm. done.
      * match goal with
        | |- context [ijcam_to_knmslm ?i ?o ?b ?r ?w0] =>
            pose proof (ijcam_to_knmslm_frame w0 i o b r) as [Hs Ht];
            destruct (ijcam_to_knmslm i o b r w0) as [[r'|e] [s2 h2 tr2]]
        end; simpl in *; subst; [|discriminate].
        intros _. rewrite Hij. done.
    + simpl. intros _. rewrite Hij. done.
  - destruct (cameraslm s) as [cs|]; [|discriminate].
    destruct (slm cs) as [d|]; [|discriminate].
    destruct (cam cs) as [c|]; [|discriminate].
    cbn [self heap trace].
    destruct (String.eqb basis "knm") eqn:Hb.
    + match goal with
      | |- context [ijcam_to_knmslm ?i ?o ?b ?r ?w0] =>
          pose proof (ijcam_to_knmslm_frame w0 i o b r) as [Hs Ht];
          destruct (ijcam_to_knmslm i o b r w0) as [[r'|e] [s2 h2 tr2]]
      end; simpl in *; subst; [|discriminate].
      done.
    + simpl. done.
Qed.

(** X5.  [measure] is idempotent: when a call returns, the same call
    made again does nothing at all; it returns and leaves attributes,
    store and hardware as they are. *)
Theorem measure_idempotent (w : World) (basis : string) :
  fst (measure basis w) = Ret tt ->
  measure basis (snd (measure basis w)) = (Ret tt, snd (measure basis w)).
Proof.
  intros Hret.
  destruct (measure_returns_filled w basis Hret) as [Hij Hknm].
  destruct (img_ij (self (snd (measure basis w)))) as [l|] eqn:Hl; [|done].
  destruct (String.eqb basis "knm") eqn:Hb.
  - specialize (Hknm eq_refl).
    destruct (img_knm (self (snd (measure basis w)))) as [k|] eqn:Hk; [|done].
    by apply (measure_cached_both _ basis l k).
  - by apply (measure_cached _ basis l Hl).
Qed.

(** X6.  On an instance without a controller ([cameraslm] is [None], as
    after binding a bare SLM) and with nothing cached, [measure] fails
    with an [AttributeError] and changes nothing; so does a weight update
    in ["experimental"] mode. *)
Theorem measure_without_controller (w : World) (basis : string) :
  cameraslm (self w) = None -> img_ij (self w) = None ->
  measure basis w = (Raise AttributeError, w) /\
  (flag_feedback (flags (self w)) = Some "experimental" ->
   _update_weights w = (Raise AttributeError, w)).
Proof.
  intros Hcs Hij.
  assert (Hm : forall b, measure b w = (Raise AttributeError, w)).
  { intros b. destruct w as [s h tr]. simpl in Hcs, Hij.
    unfold measure. run_monad. by rewrite Hij, Hcs. }
  split; [apply Hm|].
  intros Hflag. unfold _update_weights, bind, get_self.
  rewrite Hflag. cbn [ret String.eqb Ascii.eqb Bool.eqb]. by rewrite Hm.
Qed.

End MeasureEffects.

Section FreshCapture.
Context `{E : Externals}.

(** X7.  What a fresh capture leaves in the cache.  In a basis other
    than ["knm"] no calibration is needed: [img_ij] is a new array holding
    the square root of the frame and [img_knm] is cleared.  In the
    ["knm"] basis, on a calibrated instance and when the transform
    returns, [img_ij] holds the square root of the frame (blurred when a
    blur flag is set) and [img_knm] the square root of its normalised
    resampling, written into the array [img_knm] held before when there
    was one. *)
Theorem measure_fresh_caches_amplitudes (w : World) (cs : Reference)
    (d : Device) (c : Camera) :
  img_ij (self w) = None ->
  cameraslm (self w) = Some cs -> slm cs = Some d -> cam cs = Some c ->
  (forall basis, String.eqb basis "knm" = false ->
     exists w' li,
       measure basis w = (Ret tt, w') /\
       img_ij (self w') = Some li /\ img_knm (self w') = None /\
       deref (heap w') li = np_sqrt (captured_frame w)) /\
  (forall cal,
     fourier_calibration cs = Some (Some cal) ->
     valid_opt w (img_knm (self w)) ->
     let src := if (0 <? effective_blur (flags (self w)) None)%Z
                then sp_gaussian_filter (captured_frame w)
                       (effective_blur (flags (self w)) None)
                else captured_frame w in
     (_norm (knm_resampled (self w) d cal 3 src) =? 0)%float = false ->
     exists w' li lk,
       measure "knm" w = (Ret tt, w') /\
       img_ij (self w') = Some li /\ img_knm (self w') = Some lk /\
       (forall k, img_knm (self w) = Some k -> lk = k) /\
       deref (heap w') li = np_sqrt src /\
       deref (heap w') lk = np_sqrt (normalised (knm_resampled (self w) d cal 3 src))).
Proof.
  intros Hij Hcs Hslm Hcam.
  destruct w as [s h tr]. simpl in Hij, Hcs. unfold captured_frame. cbn [self heap trace].
  split.
  - intros basis Hb.
    unfold measure. run_monad. rewrite Hij, Hcs. cbn [getattr]. run_monad.
    rewrite Hslm, Hcam, Hb. cbn [self heap trace].
    eexists. eexists. split; [reflexivity|].
    cbn [self heap img_ij img_knm set_img_ij set_img_knm].
    split; [reflexivity|]. split; [reflexivity|].
    store. rewrite <- !app_assoc. reflexivity.
  - intros cal Hcal Hvalid Hnorm. cbn [self] in Hvalid.
    unfold measure. run_monad. rewrite Hij, Hcs. cbn [getattr]. run_monad.
    rewrite Hslm, Hcam. cbn [self heap trace String.eqb Ascii.eqb Bool.eqb].
    rewrite <- !app_assoc. cbn [app].
    set (frame := get_image _) in *.
    set (s1 := set_img_ij (Some (length h)) s).
    set (tr1 := tr ++ _).
    assert (Hc : calibrated s1 d cal) by (exists cs; done).
    assert (Hvalid' : valid_opt {| self := s1; heap := h ++ [frame]; trace := tr1 |}
                        (img_knm s)).
    { destruct (img_knm s) as [k|]; [|done].
      unfold valid_opt, valid in Hvalid |- *. cbn [heap] in Hvalid |- *. store_size. }
    rewrite (ijcam_to_knmslm_run {| self := s1; heap := h ++ [frame]; trace := tr1 |}
               (length h) (img_knm s) None 3 d cal Hc)
      by (done || (unfold valid; simpl; store_size)).
    cbn [self heap trace]. rewrite knm_source_alloc.
    change (flags s1) with (flags s). change (knm_resampled s1) with (knm_resampled s).
    unfold effective_blur in *.
    set (src := if (0 <? _)%Z then sp_gaussian_filter frame _ else frame) in *.
    rewrite Hnorm.
    cbn [self heap trace].
    set (fin := normalised (knm_resampled s d cal 3 src)).
    set (r := knm_result (h ++ [frame]) (img_knm s)).
    set (K := knm_heap (h ++ [frame]) (length h) (img_knm s) src fin).
    assert (Hr : deref K r = fin).
    { apply knm_heap_result; [store_size|].
      intros o Ho. rewrite Ho in Hvalid'. exact Hvalid'. }
    assert (Hneq : img_knm s <> Some (length h)).
    { intros Hk. rewrite Hk in Hvalid. unfold valid_opt, valid in Hvalid.
      cbn [heap] in Hvalid. lia. }
    assert (Hsrc : deref K (length h) = src).
    { apply knm_heap_input; [store_size | exact Hneq]. }
    assert (HrK : r < length K).
    { unfold K, r. destruct (img_knm s) as [k|] eqn:Hk; simpl.
      - unfold valid_opt, valid in Hvalid. cbn [heap] in Hvalid. store_size.
      - store_size. }
    assert (Hrn : r <> length h).
    { unfold r. destruct (img_knm s) as [k|] eqn:Hk; simpl.
      - intros ->. by apply Hneq.
      - rewrite length_app. simpl. lia. }
    eexists. eexists. eexists. split; [reflexivity|].
    cbn [self heap img_ij img_knm set_img_ij set_img_knm].
    split; [reflexivity|]. split; [reflexivity|]. split.
    + intros k Hk. unfold r. rewrite Hk. reflexivity.
    + rewrite Hr. split.
      * rewrite deref_app_length. by rewrite deref_insert_ne, Hsrc.
      * rewrite deref_app_l by (rewrite length_insert; exact HrK).
        by rewrite deref_insert_eq.
Qed.

End FreshCapture.

Section MeasureStore.
Context `{E : Externals}.

(** Facts about a transform run inside [measure], read off
    [ijcam_to_knmslm_effect] on the world it is run in. *)
Ltac transform_inside :=
  match goal with
  | |- context [ijcam_to_knmslm ?i ?o ?b ?r ?w0] =>
      let Heff := fresh "Heff" in
      assert (Heff := ijcam_to_knmslm_effect w0 i o b r);
      destruct (ijcam_to_knmslm i o b r w0) as [[r'|e] [s2 h2 tr2]];
      cbn [fst snd self heap trace] in Heff
  end.

(** X8.  [measure] is confined to the cache.  Of the attributes it
    changes [img_ij] and [img_knm] only, and of the arrays that exist
    when it is called it overwrites at most the one [img_knm] refers to
    (reused as the output buffer of a fresh capture): the target, the
    weights and the cached camera image hold afterwards what they held
    before, whether the call returns or raises. *)
Theorem measure_confined_to_cache (w : World) (basis : string) :
  valid_opt w (img_knm (self w)) ->
  self (snd (measure basis w)) =
    set_img_ij (img_ij (self (snd (measure basis w))))
      (set_img_knm (img_knm (self (snd (measure basis w)))) (self w)) /\
  (forall l, valid w l -> img_knm (self w) <> Some l ->
     deref (heap (snd (measure basis w))) l = deref (heap w) l).
Proof.
  intros Hvalid. destruct w as [s h tr].
  unfold valid, valid_opt in *. cbn [self heap] in *.
  unfold measure. run_monad.
  destruct (img_ij s) as [l0|] eqn:Hij.
  - destruct (String.eqb basis "knm");
      [|split; [destruct s; simpl in *; by subst | done]].
    destruct (img_knm s) as [k|] eqn:Hknm;
      [split; [destruct s; simpl in *; by subst | done]|].
    transform_inside.
    + destruct Heff as (Hs & _ & Hlen & Hkeep & Hres);
        [unfold valid; simpl; store_size | done |].
      destruct (Hres r' eq_refl) as [-> Hr]. subst s2. simpl in Hlen, Hr, Hkeep |- *.
      split; [destruct s; simpl in *; by subst|].
      intros l Hl _. rewrite length_app in Hlen, Hkeep. simpl in Hlen, Hkeep.
      rewrite deref_insert_ne by (rewrite length_app; simpl; lia).
      rewrite Hkeep by (lia || done || (left; lia)).
      by rewrite deref_app_l.
    + destruct Heff as (Hs & _ & Hlen & Hkeep & _);
        [unfold valid; simpl; store_size | done |].
      subst s2. simpl in Hkeep |- *.
      split; [destruct s; simpl in *; by subst|].
      intros l Hl _. rewrite length_app in Hkeep. simpl in Hkeep.
      rewrite Hkeep by (lia || done || (left; lia)).
      by rewrite deref_app_l.
  - destruct (cameraslm s) as [cs|];
      [|split; [destruct s; simpl in *; by subst | done]].
    destruct (slm cs) as [d|];
      [|split; [destruct s; simpl in *; by subst | done]].
    destruct (cam cs) as [c|]; cbn [self heap trace];
      [|split; [destruct s; simpl in *; by subst | done]].
    destruct (String.eqb basis "knm").
    + transform_inside.
      * destruct Heff as (Hs & _ & Hlen & Hkeep & Hres).
        { unfold valid. simpl. store_size. }
        { destruct (img_knm s); [|done].
          unfold valid_opt, valid in *. cbn [heap] in *. store_size. }
        destruct (Hres r' eq_refl) as [-> Hr]. subst s2. simpl in Hlen, Hr, Hkeep |- *.
        split; [destruct s; simpl in *; by subst|].
        intros l Hl Hne. rewrite length_app in Hlen, Hkeep. simpl in Hlen, Hkeep.
        rewrite deref_app_l by (rewrite length_insert; lia).
        rewrite deref_insert_ne.
        2: { destruct (img_knm s) as [k|]; simpl; [congruence|].
             rewrite length_app. simpl. lia. }
        rewrite Hkeep by (lia || done || (left; lia)).
        by rewrite deref_app_l.
      * destruct Heff as (Hs & _ & Hlen & Hkeep & _).
        { unfold valid. simpl. store_size. }
        { destruct (img_knm s); [|done].
          unfold valid_opt, valid in *. cbn [heap] in *. store_size. }
        subst s2. simpl in Hkeep |- *.
        split; [destruct s; simpl in *; by subst|].
        intros l Hl Hne. rewrite length_app in Hkeep. simpl in Hkeep.
        rewrite Hkeep by (lia || done || (left; lia)).
        by rewrite deref_app_l.
    + simpl. split; [destruct s; simpl in *; by subst|].
      intros l Hl _. rewrite <- !app_assoc. by rewrite deref_app_l.
Qed.

End MeasureStore.

Section ControllerEffects.
Context `{E : Externals}.

(** X9.  [update_target] without [reset_weights] and without [plot]
    leaves the measurement cache alone: [img_ij] and [img_knm] are not
    cleared (no attribute changes at all), the hardware is not reached,
    and every array other than the target buffer and the array passed in
    holds what it held before: the weights among them.  This holds
    whether the call returns or raises. *)
Theorem update_target_keeps_cache (w : World) (new_target : loc) :
  valid w new_target -> valid w (target (self w)) ->
  self (snd (update_target new_target false false w)) = self w /\
  trace (snd (update_target new_target false false w)) = trace w /\
  (forall l, valid w l -> l <> new_target -> l <> target (self w) ->
     deref (heap (snd (update_target new_target false false w))) l = deref (heap w) l).
Proof.
  intros Hnew Htgt.
  destruct (ijcam_to_knmslm_effect w new_target (Some (target (self w))) None 0
              Hnew Htgt) as (Hself & Htr & _ & Hkeep & _).
  unfold update_target, bind, get_self. cbn [self].
  destruct (ijcam_to_knmslm new_target (Some (target (self w))) None 0 w)
    as [[r|e] w1]; cbn [fst snd ret] in *.
  - split; [exact Hself|]. split; [exact Htr|].
    intros l Hl Hn Ht. apply Hkeep; [exact Hl | congruence | by left].
  - split; [exact Hself|]. split; [exact Htr|].
    intros l Hl Hn Ht. apply Hkeep; [exact Hl | congruence | by left].
Qed.

Lemma update_weights_in_place_run (fb : option loc) (w : World) :
  update_weights_in_place fb w =
    (Ret tt,
     {| self := self w;
        heap := <[weights (self w) :=
                    _update_weights_generic (deref (heap w) (weights (self w)))
                      (deref_opt (heap w) fb)
                      (deref (heap w) (target (self w)))]> (heap w);
        trace := trace w |}).
Proof.
  destruct w as [s h tr]. unfold update_weights_in_place. run_monad.
  destruct fb; reflexivity.
Qed.

(** X10.  The two feedback modes of [_update_weights].  In
    ["computational"] mode the call always returns, reads neither cache
    nor camera (also when the cache is empty and a controller is bound)
    and writes the weight array alone, from the simulated far field.  In
    ["experimental"] mode, when [measure("knm")] returns, the weight
    array is rewritten from the cached [img_knm], which is then never
    [None]; when [measure("knm")] raises, the exception goes through and
    the generic rule is not run. *)
Theorem _update_weights_by_mode (w : World) :
  (flag_feedback (flags (self w)) = Some "computational" ->
   _update_weights w =
     (Ret tt,
      {| self := self w;
         heap := <[weights (self w) :=
                     _update_weights_generic (deref (heap w) (weights (self w)))
                       (Some (deref (heap w) (amp_ff (self w))))
                       (deref (heap w) (target (self w)))]> (heap w);
         trace := trace w |})) /\
  (flag_feedback (flags (self w)) = Some "experimental" ->
   (forall e, fst (measure "knm" w) = Raise e ->
      _update_weights w = (Raise e, snd (measure "knm" w))) /\
   (fst (measure "knm" w) = Ret tt ->
      exists k,
        img_knm (self (snd (measure "knm" w))) = Some k /\
        _update_weights w =
          (Ret tt,
           {| self := self (snd (measure "knm" w));
              heap := <[weights (self (snd (measure "knm" w))) :=
                          _update_weights_generic
                            (deref (heap (snd (measure "knm" w)))
                               (weights (self (snd (measure "knm" w)))))
                            (Some (deref (heap (snd (measure "knm" w))) k))
                            (deref (heap (snd (measure "knm" w)))
                               (target (self (snd (measure "knm" w)))))]>
                        (heap (snd (measure "knm" w)));
              trace := trace (snd (measure "knm" w)) |}))).
Proof.
  split.
  - intros Hflag. unfold _update_weights, bind, get_self.
    rewrite Hflag. cbn [ret String.eqb Ascii.eqb Bool.eqb].
    apply update_weights_in_place_run.
  - intros Hflag. split.
    + intros e He. unfold _update_weights, bind, get_self.
      rewrite Hflag. cbn [ret String.eqb Ascii.eqb Bool.eqb].
      destruct (measure "knm" w) as [[[]|e'] w1]; simpl in *; congruence.
    + intros Hret.
      destruct (measure_returns_filled w "knm" Hret) as [_ Hknm].
      specialize (Hknm eq_refl).
      destruct (img_knm (self (snd (measure "knm" w)))) as [k|] eqn:Hk; [|done].
      exists k. split; [reflexivity|].
      unfold _update_weights, bind, get_self.
      rewrite Hflag. cbn [ret String.eqb Ascii.eqb Bool.eqb].
      destruct (measure "knm" w) as [[[]|e'] w1]; simpl in *; [|discriminate].
      rewrite update_weights_in_place_run. by rewrite Hk.
Qed.

End ControllerEffects.

Section StatisticsEffects.
Context `{E : Externals} `{SE : StatsExternals}.

(** X11.  Statistics groups are a filter.  When none of
    ["experimental_knm"], ["experimental_ij"] and ["experimental"] is
    asked for, [_calculate_stats_experimental] returns without measuring
    and without touching the dictionary (on any instance, with or without
    a controller), and [update_stats] records the computational
    statistics alone: an unknown group name is never an error. *)
Theorem stats_groups_are_a_filter (stats : gmap string metrics)
    (stat_groups : list string) (w : World) :
  "experimental_knm" ∉ stat_groups -> "experimental_ij" ∉ stat_groups ->
  "experimental" ∉ stat_groups ->
  _calculate_stats_experimental stats stat_groups w = (Ret tt, stats, w) /\
  update_stats stat_groups w =
    (Ret tt, _update_stats_dictionary (_calculate_stats_computational w stat_groups ∅) w).
Proof.
  intros Hknm Hij Hexp.
  assert (Hrun : forall st, _calculate_stats_experimental st stat_groups w = (Ret tt, st, w)).
  { intros st.
    unfold _calculate_stats_experimental, stats_experimental_knm, stats_experimental_ij.
    rewrite !bool_decide_eq_false_2 by assumption. reflexivity. }
  split; [apply Hrun|].
  unfold update_stats. by rewrite Hrun.
Qed.

(** The dictionary after the ["knm"] half and after the ["ij"] half. *)
Lemma stats_experimental_knm_keys (stat_groups : list string)
    (stats : gmap string metrics) (w : World) (key : string) :
  key <> "experimental_knm" ->
  (stats_experimental_knm stat_groups stats w).1.2 !! key = stats !! key.
Proof.
  intros Hkey. unfold stats_experimental_knm.
  destruct (bool_decide _); [|done].
  destruct (measure "knm" w) as [[[]|e] w']; simpl; [|done].
  by rewrite lookup_insert_ne.
Qed.

Lemma stats_experimental_ij_keys (stat_groups : list string)
    (stats : gmap string metrics) (w : World) (key : string) :
  key <> "experimental_ij" ->
  (stats_experimental_ij stat_groups stats w).1.2 !! key = stats !! key.
Proof.
  intros Hkey. unfold stats_experimental_ij.
  destruct (_ || _); [|done].
  destruct (measure "ij" w) as [[[]|e] w']; simpl; [|done].
  destruct (img_ij (self w')); simpl; [|done].
  by rewrite lookup_insert_ne.
Qed.

(** X12.  [_calculate_stats_experimental] writes two keys at most,
    ["experimental_knm"] and ["experimental_ij"]: every other entry of
    the caller's dictionary is as it was, whatever was asked for and
    whether the call returns or raises.  A request for ["experimental"]
    is answered under ["experimental_ij"]; no entry named
    ["experimental"] is ever written. *)
Theorem stats_experimental_keys (stats : gmap string metrics)
    (stat_groups : list string) (w : World) :
  (forall key, key <> "experimental_knm" -> key <> "experimental_ij" ->
     (_calculate_stats_experimental stats stat_groups w).1.2 !! key = stats !! key) /\
  ("experimental" ∈ stat_groups ->
   (_calculate_stats_experimental stats stat_groups w).1.1 = Ret tt ->
   is_Some ((_calculate_stats_experimental stats stat_groups w).1.2 !! "experimental_ij")).
Proof.
  split.
  - intros key Hknm Hij. unfold _calculate_stats_experimental.
    pose proof (stats_experimental_knm_keys stat_groups stats w key Hknm) as H1.
    destruct (stats_experimental_knm stat_groups stats w) as [[[[]|e] st1] w1];
      simpl in *; [|exact H1].
    rewrite stats_experimental_ij_keys by exact Hij. exact H1.
  - intros Hexp. unfold _calculate_stats_experimental.
    destruct (stats_experimental_knm stat_groups stats w) as [[[[]|e] st1] w1];
      simpl; [|discriminate].
    unfold stats_experimental_ij.
    rewrite (bool_decide_eq_true_2 _ Hexp), orb_true_r.
    destruct (measure "ij" w1) as [[[]|e] w']; simpl; [|discriminate].
    destruct (img_ij (self w')); simpl; [|discriminate].
    intros _. rewrite lookup_insert_eq. by eexists.
Qed.

(** The hardware sees of the statistics what it sees of some sequence of
    [measure] calls. *)
Lemma stats_experimental_trace (stats : gmap string metrics)
    (stat_groups : list string) (w : World) :
  exists bases,
    trace (_calculate_stats_experimental stats stat_groups w).2 =
    trace (measure_all bases w).
Proof.
  unfold _calculate_stats_experimental, stats_experimental_knm, stats_experimental_ij.
  destruct (bool_decide ("experimental_knm" ∈ stat_groups)).
  - destruct (measure "knm" w) as [[[]|e] w1] eqn:Hknm; cbn [fst snd].
    + destruct (_ || _).
      * exists ["knm"; "ij"]. simpl. rewrite Hknm. cbn [snd].
        destruct (measure "ij" w1) as [[[]|e] w2]; cbn [snd]; [|done].
        by destruct (img_ij (self w2)).
      * exists ["knm"]. simpl. by rewrite Hknm.
    + exists ["knm"]. simpl. by rewrite Hknm.
  - cbn [fst snd]. destruct (_ || _).
    + exists ["ij"]. simpl.
      destruct (measure "ij" w) as [[[]|e] w2]; cbn [snd]; [|done].
      by destruct (img_ij (self w2)).
    + by exists [].
Qed.

(** X13.  However many experimental groups are asked for, the statistics
    grab one frame at most: with both ["experimental_knm"] and
    ["experimental_ij"] requested the camera image measured for the first
    serves the second.  With [img_ij] cached the hardware is not reached
    at all. *)
Theorem stats_experimental_capture_once (stats : gmap string metrics)
    (stat_groups : list string) (w : World) :
  captures (trace (_calculate_stats_experimental stats stat_groups w).2)
    <= S (captures (trace w)) /\
  (img_ij (self w) <> None ->
   trace (_calculate_stats_experimental stats stat_groups w).2 = trace w).
Proof.
  destruct (stats_experimental_trace stats stat_groups w) as [bases ->].
  split; [apply measure_all_captures|].
  intros Hij. destruct (img_ij (self w)) as [l|] eqn:Hl; [|done].
  by apply (measure_all_cached bases w l).
Qed.

End StatisticsEffects.

Section ConstructorEffects.
Context `{E : Externals}.

(** X14.  Without a [cameraslm] the constructor cannot fail: the [amp]
    keyword is taken out of [kwargs] and handed to [Hologram.__init__],
    feedback is off ([cameraslm], [cam_points] and [cam_shape] are
    [None]), the cache is empty, the hardware is not reached, and the
    target is what [Hologram.__init__] made it: a [target_ij] is stored
    but not transformed. *)
Theorem init_without_cameraslm (sh : shape2) (arg_target_ij : option loc)
    (kwargs : Kwargs) (h : list ndarray) (tr : list event) :
  exists w,
    __init__ sh arg_target_ij None kwargs h tr = Ret w /\
    cameraslm (self w) = None /\
    cam_points (self w) = None /\ cam_shape (self w) = None /\
    img_ij (self w) = None /\ img_knm (self w) = None /\
    trace w = tr /\
    deref (heap w) (target (self w)) =
      init_target (Hologram__init__ sh (kw_amp kwargs) (default None (kw_slm_shape kwargs))).
Proof.
  unfold __init__, resolve_cameraslm. cbn [kw_amp kw_slm_shape].
  destruct arg_target_ij as [t|];
    unfold init_camera_geometry; run_monad; cbn [cameraslm];
    eexists; (split; [reflexivity|]);
    cbn [self heap trace cameraslm cam_points cam_shape img_ij img_knm target
         set_camera_geometry];
    repeat (split; [reflexivity|]).
  - rewrite <- app_assoc. apply deref_app_length.
  - apply deref_app_length.
Qed.

(** X15.  With a [cameraslm], an [amp] keyword is fatal: [kwargs] still
    holds it when [Hologram.__init__] is called with [amp=amp] as well,
    which Python refuses with a [TypeError]; an object that answers to
    neither probe fails with [ConfigurationError] before that.  Either
    way no instance is made. *)
Theorem init_amp_with_cameraslm_fails (sh : shape2) (arg_target_ij : option loc)
    (r : Reference) (kwargs : Kwargs) (a : ndarray) (h : list ndarray)
    (tr : list event) :
  kw_amp kwargs = Some a ->
  __init__ sh arg_target_ij (Some r) kwargs h tr =
    match from_option probe None (slm r), probe (as_device r) with
    | None, None => Raise ConfigurationError
    | _, _ => Raise TypeError
    end.
Proof.
  intros Hamp. unfold __init__, resolve_cameraslm.
  destruct (from_option probe None (slm r)) as [[amp s]|].
  - by rewrite Hamp.
  - destruct (probe (as_device r)) as [[amp s]|]; [|reflexivity].
    by rewrite Hamp.
Qed.

(** X16.  When the instance ends up without a calibration (a bare SLM, or
    a composite controller whose calibration is [None]), a [target_ij]
    given to the constructor is copied and nothing more: [self.target_ij]
    is a new array with the contents of the caller's, the caller's array
    is untouched, and [self.target] is what [Hologram.__init__] made it
    from the device's amplitude and shape, not derived from [target_ij]. *)
Theorem init_uncalibrated_copies_target_ij (sh : shape2) (t : loc) (r : Reference)
    (kwargs : Kwargs) (h : list ndarray) (tr : list event)
    (cs : option Reference) (amp : ndarray) (s : shape2) :
  kw_amp kwargs = None -> t < length h ->
  resolve_cameraslm (Some r) kwargs = Ret (cs, Some amp, Some s, kwargs) ->
  cs = None \/ fourier_calibration r = Some None ->
  exists w lt,
    __init__ sh (Some t) (Some r) kwargs h tr = Ret w /\
    cameraslm (self w) = cs /\
    target_ij (self w) = Some lt /\ lt <> t /\
    deref (heap w) lt = deref h t /\
    deref (heap w) t = deref h t /\
    deref (heap w) (target (self w)) =
      init_target (Hologram__init__ sh (Some amp) (default (Some s) (kw_slm_shape kwargs))) /\
    trace w = tr.
Proof.
  intros Hamp Ht Hres Hcase.
  assert (Hcs : cs = None \/ (cs = Some r /\ fourier_calibration r = Some None)).
  { destruct Hcase as [-> | Hcal]; [by left|].
    unfold resolve_cameraslm in Hres.
    destruct (from_option probe None (slm r)) as [[amp' s']|].
    - injection Hres as <- _ _. by right.
    - destruct (probe (as_device r)) as [[amp' s']|]; [|discriminate].
      injection Hres as <- _ _. by left. }
  unfold __init__. rewrite Hres, Hamp.
  unfold init_camera_geometry. run_monad. cbn [cameraslm].
  destruct Hcs as [-> | [-> Hcal]]; [|rewrite Hcal];
    cbn [self heap trace];
    eexists; eexists; (split; [reflexivity|]);
    cbn [self heap trace cameraslm target_ij target set_camera_geometry];
    (split; [reflexivity|]); (split; [reflexivity|]);
    (split; [rewrite length_app; simpl; lia|]);
    (split; [rewrite deref_app_length; by rewrite deref_app_l|]);
    (split; [by rewrite !deref_app_l by store_size|]);
    (split; [|done]);
    rewrite deref_app_l by store_size; apply deref_app_length.
Qed.

(** X17.  With a calibrated composite controller the constructor
    transforms [target_ij] at once, at interpolation order 0: it fails
    with [OutOfRangeError] when the resampled target has no power, and
    otherwise hands back an instance whose target buffer holds the
    normalised resampling and whose weights have been reset.  The copy
    kept in [self.target_ij] is taken before the transform, so it holds
    the caller's image as given, while the caller's own array is the one
    a configured blur overwrites.  The cache starts empty. *)
Theorem init_calibrated_transforms_target (sh : shape2) (t : loc) (r : Reference)
    (kwargs : Kwargs) (h : list ndarray) (tr : list event) (d : Device)
    (c : Camera) (cal : Calibration) (amp : ndarray) (s : shape2) :
  kw_amp kwargs = None -> t < length h ->
  slm r = Some d -> probe d = Some (amp, s) -> cam r = Some c ->
  fourier_calibration r = Some (Some cal) ->
  exists w1 lt,
    shape (self w1) =
      init_shape (Hologram__init__ sh (Some amp) (default (Some s) (kw_slm_shape kwargs))) /\
    flags (self w1) =
      init_flags (Hologram__init__ sh (Some amp) (default (Some s) (kw_slm_shape kwargs))) /\
    cameraslm (self w1) = Some r /\
    cam_shape (self w1) = Some (camera_shape c) /\
    img_ij (self w1) = None /\ img_knm (self w1) = None /\
    target_ij (self w1) = Some lt /\ lt <> t /\
    deref (heap w1) lt = deref h t /\
    deref (heap w1) t =
      (if (0 <? effective_blur (flags (self w1)) None)%Z
       then sp_gaussian_filter (deref h t) (effective_blur (flags (self w1)) None)
       else deref h t) /\
    deref (heap w1) (target (self w1)) =
      normalised (knm_resampled (self w1) d cal 0 (deref (heap w1) t)) /\
    __init__ sh (Some t) (Some r) kwargs h tr =
      if (_norm (knm_resampled (self w1) d cal 0 (deref (heap w1) t)) =? 0)%float
      then Raise OutOfRangeError
      else Ret (reset_weights w1).
Proof.
  intros Hamp Ht Hslm Hprobe Hcam Hcal.
  unfold __init__, resolve_cameraslm. rewrite Hslm. cbn [from_option].
  rewrite Hprobe, Hamp.
  set (base := Hologram__init__ sh (Some amp) (default (Some s) (kw_slm_shape kwargs))).
  cbv zeta.
  set (h1 := h ++ [init_target base; init_weights base; init_amp_ff base; init_phase base]).
  assert (Hh1 : length h1 = length h + 4) by (unfold h1; rewrite length_app; simpl; lia).
  unfold init_camera_geometry. run_monad. cbn [cameraslm].
  rewrite Hcal, Hcam, Hslm. cbn [self heap trace].
  set (s0 := set_camera_geometry _ _ _).
  assert (Hc : calibrated s0 d cal) by (exists r; done).
  unfold update_target, bind, get_self. cbn [self].
  rewrite (ijcam_to_knmslm_run {| self := s0; heap := h1 ++ [deref h1 t]; trace := tr |}
             t (Some (target s0)) None 0 d cal Hc)
    by (unfold valid_opt, valid; simpl; rewrite length_app, Hh1; simpl; lia).
  cbn [self heap trace].
  set (src := knm_source _ t None).
  set (fin := normalised _).
  set (K := knm_heap _ t _ src fin).
  assert (Hsrc0 : deref (h1 ++ [deref h1 t]) t = deref h t).
  { rewrite deref_app_l by lia. unfold h1. by rewrite deref_app_l. }
  assert (Hsrc : src = if (0 <? effective_blur (flags s0) None)%Z
                       then sp_gaussian_filter (deref h t) (effective_blur (flags s0) None)
                       else deref h t).
  { unfold src, knm_source. cbn [self heap]. by rewrite Hsrc0. }
  assert (Ht1 : t <> target s0) by (simpl; lia).
  assert (HKt : deref K t = src).
  { unfold K. apply knm_heap_input; [rewrite length_app, Hh1; simpl; lia|].
    congruence. }
  assert (HKtgt : deref K (target s0) = fin).
  { unfold K. apply (knm_heap_result _ t (Some (target s0)));
      [rewrite length_app, Hh1; simpl; lia|].
    intros o [= <-]. rewrite length_app, Hh1. simpl. lia. }
  assert (HKlt : deref K (length h1) = deref h t).
  { unfold K. rewrite knm_heap_other.
    - rewrite deref_app_length. unfold h1. by rewrite deref_app_l.
    - rewrite length_app. simpl. lia.
    - lia.
    - simpl. intros [= Heq]. lia. }
  exists {| self := s0; heap := K; trace := tr |}, (length h1).
  cbn [self heap trace].
  split; [reflexivity|]. split; [reflexivity|]. split; [reflexivity|].
  split; [reflexivity|]. split; [reflexivity|]. split; [reflexivity|].
  split; [reflexivity|]. split; [lia|]. split; [exact HKlt|].
  split; [by rewrite HKt|]. rewrite HKt. split; [exact HKtgt|].
  fold fin. destruct (_norm _ =? 0)%float; reflexivity.
Qed.

End ConstructorEffects.

(** * Concrete runs of the further properties *)

Lemma ijcam_to_knmslm_touches_only_its_buffers_witness :
  let w := calibrated_world no_flags [[3; 4]]%float in
  self (snd (ijcam_to_knmslm (E := example_externals) 4 (Some 2) None 3 w)) = self w /\
  deref (heap (snd (ijcam_to_knmslm (E := example_externals) 4 (Some 2) None 3 w))) 1
    = [[1; 1]]%float.
Proof.
  intros w.
  destruct (ijcam_to_knmslm_touches_only_its_buffers (E := example_externals)
              w 4 (Some 2) None 3) as (Hself & _ & Hkeep).
  - unfold valid. simpl. lia.
  - unfold valid_opt, valid. simpl. lia.
  - split; [exact Hself|]. rewrite Hkeep; [reflexivity | | lia | discriminate].
    unfold valid. simpl. lia.
Defined.

Lemma ijcam_to_knmslm_keeps_input_without_blur_witness :
  let w := calibrated_world blur_flags [[4; 0]]%float in
  deref (heap (snd (ijcam_to_knmslm (E := example_externals) 4 None (Some 0%Z) 3 w))) 4
    = [[4; 0]]%float.
Proof.
  intros w.
  refine (proj2 (ijcam_to_knmslm_keeps_input_without_blur (E := example_externals)
                   w 4 None None 3 _ _ _)).
  - unfold valid. simpl. lia.
  - exact I.
  - discriminate.
Defined.

Lemma measure_idempotent_witness :
  let w := snd (measure (E := example_externals) "knm"
                  (calibrated_world no_flags [[0; 0]]%float)) in
  measure (E := example_externals) "knm" w = (Ret tt, w).
Proof.
  intros w.
  apply (measure_idempotent (E := example_externals)
           (calibrated_world no_flags [[0; 0]]%float) "knm").
  vm_compute. reflexivity.
Defined.

Lemma measure_without_controller_witness :
  let w := example_world None experimental_flags [[0; 0]]%float in
  measure (E := example_externals) "knm" w = (Raise AttributeError, w) /\
  _update_weights (E := example_externals) w = (Raise AttributeError, w).
Proof.
  intros w.
  destruct (measure_without_controller (E := example_externals) w "knm" eq_refl eq_refl)
    as [Hm Hu].
  split; [exact Hm | exact (Hu eq_refl)].
Defined.

Lemma measure_fresh_caches_amplitudes_witness :
  let w := calibrated_world no_flags [[0; 0]]%float in
  (exists w' li,
     measure (E := example_externals) "ij" w = (Ret tt, w') /\
     img_ij (self w') = Some li /\ img_knm (self w') = None /\
     deref (heap w') li = [[PrimFloat.sqrt 2; 1]]%float) /\
  (exists w' li lk,
     measure (E := example_externals) "knm" w = (Ret tt, w') /\
     img_ij (self w') = Some li /\ img_knm (self w') = Some lk /\
     deref (heap w') li = [[PrimFloat.sqrt 2; 1]]%float).
Proof.
  intros w.
  destruct (measure_fresh_caches_amplitudes (E := example_externals) w
              (example_fourier_slm (Some example_calibration)) example_slm
              {| camera_shape := (1, 2)%Z |} eq_refl eq_refl eq_refl eq_refl)
    as [Hij Hknm].
  split.
  - destruct (Hij "ij" eq_refl) as (w' & li & Hrun & Hli & Hk & Hd).
    exists w', li. repeat (split; [assumption|]). rewrite Hd. vm_compute. reflexivity.
  - destruct (Hknm example_calibration eq_refl I) as (w' & li & lk & Hrun & Hli & Hlk & _ & Hd & _).
    + vm_compute. reflexivity.
    + exists w', li, lk. repeat (split; [assumption|]). rewrite Hd. vm_compute. reflexivity.
Defined.

Lemma measure_confined_to_cache_witness :
  let w := calibrated_world no_flags [[0; 0]]%float in
  deref (heap (snd (measure (E := example_externals) "knm" w))) 0 = [[1; 0]]%float /\
  deref (heap (snd (measure (E := example_externals) "knm" w))) 1 = [[1; 1]]%float.
Proof.
  intros w.
  destruct (measure_confined_to_cache (E := example_externals) w "knm" I) as [_ Hkeep].
  split; (rewrite Hkeep; [reflexivity | unfold valid; simpl; lia | discriminate]).
Defined.

Lemma update_target_keeps_cache_witness :
  let w := cached_world in
  img_ij (self (snd (update_target (E := example_externals) 4 false false w))) = Some 6 /\
  deref (heap (snd (update_target (E := example_externals) 4 false false w))) 1
    = [[1; 1]]%float.
Proof.
  intros w.
  destruct (update_target_keeps_cache (E := example_externals) w 4) as (Hself & _ & Hkeep).
  - unfold valid. vm_compute. lia.
  - unfold valid. vm_compute. lia.
  - split; [rewrite Hself; reflexivity|].
    rewrite Hkeep; [reflexivity | unfold valid; vm_compute; lia | lia | ].
    vm_compute. lia.
Defined.

Lemma _update_weights_by_mode_witness :
  trace (snd (_update_weights (E := example_externals)
                (calibrated_world computational_flags [[0; 0]]%float))) = [] /\
  (exists k,
     img_knm (self (snd (measure (E := example_externals) "knm"
                           (calibrated_world experimental_flags [[0; 0]]%float)))) = Some k).
Proof.
  split.
  - rewrite (proj1 (_update_weights_by_mode (E := example_externals)
                      (calibrated_world computational_flags [[0; 0]]%float)) eq_refl).
    reflexivity.
  - destruct (proj2 (proj2 (_update_weights_by_mode (E := example_externals)
                              (calibrated_world experimental_flags [[0; 0]]%float))
                       eq_refl)) as (k & Hk & _).
    + vm_compute. reflexivity.
    + exists k. exact Hk.
Defined.

Lemma stats_groups_are_a_filter_witness :
  let w := example_world None no_flags [[0; 0]]%float in
  _calculate_stats_experimental (E := example_externals) (SE := example_stats_externals)
    ∅ ["computational"; "experimental_kmn"] w = (Ret tt, ∅, w).
Proof.
  intros w.
  refine (proj1 (stats_groups_are_a_filter (E := example_externals)
                   (SE := example_stats_externals) ∅
                   ["computational"; "experimental_kmn"] w _ _ _));
    intros Hin; repeat (apply elem_of_cons in Hin as [Hin | Hin]; [discriminate Hin|]);
    by apply elem_of_nil in Hin.
Defined.

Lemma stats_experimental_keys_witness :
  let w := calibrated_world no_flags [[0; 0]]%float in
  is_Some ((_calculate_stats_experimental (E := example_externals)
              (SE := example_stats_externals) ∅ ["experimental"] w).1.2
           !! "experimental_ij") /\
  (_calculate_stats_experimental (E := example_externals)
     (SE := example_stats_externals) ∅ ["experimental"] w).1.2 !! "experimental" = None.
Proof.
  intros w.
  destruct (stats_experimental_keys (E := example_externals)
              (SE := example_stats_externals) ∅ ["experimental"] w) as [Hother Hij].
  split.
  - apply Hij; [apply elem_of_cons; by left|].
    unfold _calculate_stats_experimental, stats_experimental_knm, stats_experimental_ij.
    rewrite bool_decide_eq_false_2
      by (intros Hin; apply elem_of_cons in Hin as [Hin | Hin];
          [discriminate Hin | by apply elem_of_nil in Hin]).
    rewrite (bool_decide_eq_true_2 ("experimental" ∈ ["experimental"]))
      by (apply elem_of_cons; by left).
    rewrite orb_true_r.
    change (measure "ij" w) with
      (fst (measure (E := example_externals) "ij" w),
       snd (measure (E := example_externals) "ij" w)).
    assert (Hret : fst (measure (E := example_externals) "ij" w) = Ret tt)
      by (vm_compute; reflexivity).
    assert (Himg : img_ij (self (snd (measure (E := example_externals) "ij" w))) = Some 6)
      by (vm_compute; reflexivity).
    rewrite Hret. cbn [fst snd]. rewrite Himg. reflexivity.
  - rewrite Hother by discriminate. apply lookup_empty.
Defined.

Lemma stats_experimental_capture_once_witness :
  let w := calibrated_world no_flags [[0; 0]]%float in
  captures (trace (_calculate_stats_experimental (E := example_externals)
                     (SE := example_stats_externals) ∅
                     ["experimental_knm"; "experimental_ij"] w).2) <= 1.
Proof.
  intros w.
  exact (proj1 (stats_experimental_capture_once (E := example_externals)
                  (SE := example_stats_externals) ∅
                  ["experimental_knm"; "experimental_ij"] w)).
Defined.

Lemma init_amp_with_cameraslm_fails_witness :
  __init__ (E := example_externals) (1, 2)%Z None (Some example_bare_slm)
    {| kw_amp := Some [[1; 1]]%float; kw_slm_shape := None |} [] [] = Raise TypeError.
Proof.
  exact (init_amp_with_cameraslm_fails (E := example_externals) (1, 2)%Z None
           example_bare_slm {| kw_amp := Some [[1; 1]]%float; kw_slm_shape := None |}
           [[1; 1]]%float [] [] eq_refl).
Defined.

Lemma init_uncalibrated_copies_target_ij_witness :
  exists w lt,
    __init__ (E := example_externals) (1, 2)%Z (Some 0) (Some (example_fourier_slm None))
      no_kwargs [[[3; 4]]%float] [] = Ret w /\
    target_ij (self w) = Some lt /\
    deref (heap w) lt = [[3; 4]]%float /\
    deref (heap w) (target (self w)) = [[0; 0]]%float.
Proof.
  destruct (init_uncalibrated_copies_target_ij (E := example_externals) (1, 2)%Z 0
              (example_fourier_slm None) no_kwargs [[[3; 4]]%float] []
              (Some (example_fourier_slm None)) [[1; 1]]%float (1, 2)%Z
              eq_refl) as (w & lt & Hrun & _ & Hlt & _ & Hcopy & _ & Htgt & _).
  - simpl. lia.
  - reflexivity.
  - by right.
  - exists w, lt. split; [exact Hrun|]. split; [exact Hlt|].
    split; [exact Hcopy | exact Htgt].
Defined.

Lemma init_calibrated_transforms_target_witness :
  exists w1,
    __init__ (E := example_externals) (1, 2)%Z (Some 0)
      (Some (example_fourier_slm (Some example_calibration)))
      no_kwargs [[[3; 4]]%float] [] = Ret (copy_target_to_weights w1) /\
    deref (heap w1) (target (self w1)) = [[3 * (1 / 5); 4 * (1 / 5)]]%float.
Proof.
  destruct (init_calibrated_transforms_target (E := example_externals) (1, 2)%Z 0
              (example_fourier_slm (Some example_calibration)) no_kwargs
              [[[3; 4]]%float] [] example_slm {| camera_shape := (1, 2)%Z |}
              example_calibration [[1; 1]]%float (1, 2)%Z eq_refl)
    as (w1 & lt & Hshape & Hflags & _ & _ & _ & _ & _ & _ & _ & Hsrc & Htgt & Hrun);
    try reflexivity.
  - simpl. lia.
  - rewrite Hflags in Hsrc. cbn in Hsrc.
    assert (Hres : knm_resampled (E := example_externals) (self w1) example_slm
                     example_calibration 0 (deref (heap w1) 0) = [[3; 4]]%float).
    { unfold knm_resampled. rewrite Hshape, Hsrc. vm_compute. reflexivity. }
    rewrite Hres in Htgt, Hrun.
    exists w1. split.
    + etransitivity; [exact Hrun | reflexivity].
    + rewrite Htgt. vm_compute. reflexivity.
Defined.
